(** * DataDive25 site build script ([.github/workflows/build.py])

    A shallow embedding of the build script and the proofs of the
    properties its specification states.

    Modelling conventions.
    - A Python [str] is a sequence of Unicode code points: [text] is a list
      of code points ([N]).  String constants of the script are written
      [lit "..."]; all of them are ASCII except the em dash U+2014.
    - A [pathlib.Path] is the list of its components below the filesystem
      root; [p / name] appends a component.
    - The filesystem is a tree whose directories are finite maps from entry
      names to nodes, so that a directory never holds two entries of one
      name.  POSIX conventions: names are compared by code point and
      glob patterns are case sensitive.
    - Code that prints, launches subprocesses or writes files runs in a
      state-and-exception monad over a [World]; the two external programs
      (the notation converter and the site renderer) are an arbitrary
      function [os_run] of the whole world. *)

From Stdlib Require Import ZArith NArith List Ascii String DecimalString Lia.
From stdpp Require Import base option list gmap sorting.

#[local] Set Warnings "-register-all".

(** ** Text: Python's [str] operations used by the script *)

Module Text.

Definition char := N.
Definition text := list char.

Definition lit (s : string) : text := map N_of_ascii (list_ascii_of_string s).
Arguments lit s%_string : simpl never.

Definition newline : char := 10%N.
Definition dot : char := 46%N.

(** [s.startswith(p)] *)
Fixpoint startswith (s p : text) {struct p} : bool :=
  match p, s with
  | [], _ => true
  | _ :: _, [] => false
  | c :: p', d :: s' => N.eqb c d && startswith s' p'
  end.

(** [s.endswith(p)] *)
Definition endswith (s p : text) : bool := startswith (rev s) (rev p).

(** [p in s] *)
Fixpoint contains (p s : text) : bool :=
  startswith s p ||
  match s with
  | [] => false
  | _ :: s' => contains p s'
  end.

(** [s.find(p)]: index of the first occurrence, or -1. *)
Fixpoint find_from (p s : text) (i : Z) : Z :=
  if startswith s p then i
  else match s with
       | [] => (-1)%Z
       | _ :: s' => find_from p s' (i + 1)%Z
       end.
Definition find (s p : text) : Z := find_from p s 0%Z.

(** [s.rfind(p)] for a one-character [p]: index of the last occurrence,
    or -1. *)
Fixpoint rfind_char_from (c : char) (s : text) (i : Z) (last : Z) : Z :=
  match s with
  | [] => last
  | d :: s' => rfind_char_from c s' (i + 1)%Z (if N.eqb c d then i else last)
  end.
Definition rfind_char (s : text) (c : char) : Z := rfind_char_from c s 0%Z (-1)%Z.

(** [s[a:b]] for non-negative [a] and [b]. *)
Definition slice (s : text) (a b : Z) : text :=
  take (Z.to_nat (b - a)) (drop (Z.to_nat a) s).

(** [s.replace(old, new)] for a non-empty [old]: occurrences are replaced
    from left to right and do not overlap.  [skip] counts the characters of
    a replaced occurrence that are still to be passed over. *)
Fixpoint replace_from (old new : text) (skip : nat) (s : text) : text :=
  match s with
  | [] => []
  | c :: s' =>
      match skip with
      | S k => replace_from old new k s'
      | O => if startswith s old
             then new ++ replace_from old new (length old - 1) s'
             else c :: replace_from old new 0 s'
      end
  end.
Definition replace (s old new : text) : text := replace_from old new 0 s.

(** [str.isspace] on one character. *)
Definition isspace (c : char) : bool :=
  ((9 <=? c) && (c <=? 13) || (28 <=? c) && (c <=? 32) ||
   (c =? 133) || (c =? 160) || (c =? 5760) ||
   (8192 <=? c) && (c <=? 8202) || (c =? 8232) || (c =? 8233) ||
   (c =? 8239) || (c =? 8287) || (c =? 12288))%N.

Fixpoint lstrip (s : text) : text :=
  match s with
  | c :: s' => if isspace c then lstrip s' else s
  | [] => []
  end.
Definition rstrip (s : text) : text := rev (lstrip (rev s)).
(** [s.strip()] *)
Definition strip (s : text) : text := rstrip (lstrip s).

(** [s.split("\n")]: never empty, [""] splits into [[""]]. *)
Fixpoint split_nl (s : text) : list text :=
  match s with
  | [] => [[]]
  | c :: s' =>
      if N.eqb c newline then [] :: split_nl s'
      else match split_nl s' with
           | l :: ls => (c :: l) :: ls
           | [] => [[c]]
           end
  end.

(** [sep.join(ls)] *)
Fixpoint join (sep : text) (ls : list text) : text :=
  match ls with
  | [] => []
  | [l] => l
  | l :: ls' => l ++ sep ++ join sep ls'
  end.

(** Python compares sequences lexicographically: by the first position
    where they differ, a proper prefix being smaller.  [lex_leb ltb a b]
    is [a <= b] and [lex_ltb ltb a b] is [a < b], given the strict order
    [ltb] of the elements. *)
Fixpoint lex_leb {A} `{EqDecision A} (ltb : A -> A -> bool) (a b : list A) : bool :=
  match a, b with
  | [], _ => true
  | _ :: _, [] => false
  | c :: a', d :: b' => ltb c d || (bool_decide (c = d) && lex_leb ltb a' b')
  end.
Definition lex_ltb {A} `{EqDecision A} (ltb : A -> A -> bool) (a b : list A) : bool :=
  lex_leb ltb a b && negb (bool_decide (a = b)).

(** Comparison of two strings, by code points. *)
Definition text_leb : text -> text -> bool := lex_leb N.ltb.
Definition text_ltb : text -> text -> bool := lex_ltb N.ltb.
Definition text_le (a b : text) : Prop := text_leb a b = true.
Definition text_lt (a b : text) : Prop := text_ltb a b = true.

(** [p] occurs in [s] entirely within the first [k] characters. *)
Definition occurs_within (p : text) (k : nat) (s : text) : Prop :=
  exists pre post, s = pre ++ p ++ post /\ length pre + length p <= k.

Definition occurs (p s : text) : Prop :=
  exists pre post, s = pre ++ p ++ post.

End Text.
Export Text.

(** ** Paths and the filesystem *)

Module Fs.

Definition Path := list text.

(** [p / name] *)
Definition child (p : Path) (name : text) : Path := p ++ [name].
(** [p.name] *)
Definition name_of (p : Path) : text := default [] (last p).
(** [p.parent] *)
Definition parent (p : Path) : Path := removelast p.
(** [str(p)] for an absolute path. *)
Definition path_str (p : Path) : text :=
  match p with
  | [] => lit "/"
  | _ => flat_map (fun c => lit "/" ++ c) p
  end.

(** [p.stem] (pathlib of Python 3.10 to 3.13): the name without its last
    suffix; a leading or a trailing dot starts no suffix. *)
Definition stem_of_name (name : text) : text :=
  let i := rfind_char name dot in
  if ((0 <? i) && (i <? Z.of_nat (length name) - 1))%Z
  then slice name 0 i else name.
Definition stem (p : Path) : text := stem_of_name (name_of p).

(** [p.relative_to(root)], as the components that follow [root]. *)
Fixpoint relative_to (p root : Path) : option Path :=
  match root, p with
  | [], _ => Some p
  | r :: root', c :: p' => if decide (r = c) then relative_to p' root' else None
  | _ :: _, [] => None
  end.
(** [str] of a relative path. *)
Definition rel_str (p : Path) : text :=
  match p with
  | [] => lit "."
  | _ => join (lit "/") p
  end.

(** A file holds its text when it can be read as UTF-8, and nothing when
    reading it fails. *)
Inductive node :=
| File (data : option text)
| Dir (entries : gmap text node).

Inductive exn :=
| FileNotFoundError
| IsADirectoryError
| NotADirectoryError
| UnicodeDecodeError
| PermissionError
| ValueError.

Fixpoint lookup_path (p : Path) (n : node) : option node :=
  match p with
  | [] => Some n
  | c :: p' =>
      match n with
      | Dir es => match es !! c with
                  | Some n' => lookup_path p' n'
                  | None => None
                  end
      | File _ => None
      end
  end.

(** [p.exists()] *)
Definition exists_ (fs : node) (p : Path) : bool :=
  match lookup_path p fs with Some _ => true | None => false end.

(** [p.is_dir()] *)
Definition is_dir (fs : node) (p : Path) : bool :=
  match lookup_path p fs with Some (Dir _) => true | _ => false end.

(** [p.read_text(encoding="utf-8")] *)
Definition read_text (fs : node) (p : Path) : exn + text :=
  match lookup_path p fs with
  | Some (File (Some t)) => inr t
  | Some (File None) => inl UnicodeDecodeError
  | Some (Dir _) => inl IsADirectoryError
  | None => inl FileNotFoundError
  end.

(** [p.write_text(data)]: creates or replaces the file [p]; fails when
    the parent is missing or is not a directory, or when [p] is a
    directory. *)
Fixpoint write_node (p : Path) (data : text) (n : node) : exn + node :=
  match n with
  | File _ => inl NotADirectoryError
  | Dir es =>
      match p with
      | [] => inl IsADirectoryError
      | [c] =>
          match es !! c with
          | Some (Dir _) => inl IsADirectoryError
          | _ => inr (Dir (<[c := File (Some data)]> es))
          end
      | c :: p' =>
          match es !! c with
          | Some n' =>
              match write_node p' data n' with
              | inr n'' => inr (Dir (<[c := n'']> es))
              | inl e => inl e
              end
          | None => inl FileNotFoundError
          end
      end
  end.

(** [p.iterdir()]: the entries of a directory, in no particular order. *)
Definition iterdir (fs : node) (p : Path) : exn + list Path :=
  match lookup_path p fs with
  | Some (Dir es) => inr (child p <$> (map_to_list es).*1)
  | Some (File _) => inl NotADirectoryError
  | None => inl FileNotFoundError
  end.

(** [p.glob("*" + ext)]: the entries of [p], of any kind, whose name ends
    with [ext]; nothing when [p] is not a directory. *)
Definition glob_suffix (fs : node) (p : Path) (ext : text) : list Path :=
  match lookup_path p fs with
  | Some (Dir es) =>
      child p <$> filter (fun n => endswith n ext = true) (map_to_list es).*1
  | _ => []
  end.

(** Paths compare component by component. *)
Definition path_leb : Path -> Path -> bool := lex_leb text_ltb.
Definition path_le (p q : Path) : Prop := path_leb p q = true.

#[export] Instance path_le_dec p q : Decision (path_le p q).
Proof. unfold path_le. apply _. Defined.

(** [sorted(paths)] *)
Definition sorted (ps : list Path) : list Path := merge_sort path_le ps.

End Fs.
Export Fs.

(** ** The build script *)

Module Build.

(** *** Project discovery *)

(** The ["type"] of a file entry. *)
Inductive kind := markdown | quarto | notebook | jupytext.

#[export] Instance kind_eq_dec : EqDecision kind.
Proof. solve_decision. Defined.

(** A file entry, the dict with keys ["path"], ["type"] and ["name"]. *)
Record Doc := mkDoc { path : Path; type : kind; name : text }.

(** A team entry, the dict with keys ["name"], ["path"] and ["files"]. *)
Record Team := mkTeam { team_name : text; team_path : Path; files : list Doc }.

Definition is_jupytext_file (fs : node) (py_file : Path) : bool :=
  match read_text fs py_file with
  | inr content =>
      contains (lit "# ---") (take 500 content) &&
      contains (lit "jupytext:") (take 1000 content)
  | inl _ => false
  end.

Definition skip_dirs : list text :=
  [lit "template"; lit ".venv"; lit "__pycache__"; lit "demo"; lit "data"].

(** One [for f in sorted(team_dir.glob(pattern)): files.append({...})]
    loop, with the condition [keep] on the file. *)
Definition collect (k : kind) (keep : Path -> bool) (ps : list Path)
    (files : list Doc) : list Doc :=
  foldl (fun files f =>
           if keep f
           then files ++ [{| path := f; type := k; name := stem f |}]
           else files)
        files ps.

Definition team_files (fs : node) (team_dir : Path) : list Doc :=
  let files := [] in
  let files := collect markdown (fun _ => true)
                 (sorted (glob_suffix fs team_dir (lit ".md"))) files in
  let files := collect quarto (fun _ => true)
                 (sorted (glob_suffix fs team_dir (lit ".qmd"))) files in
  let files := collect notebook (fun _ => true)
                 (sorted (glob_suffix fs team_dir (lit ".ipynb"))) files in
  let files := collect jupytext (is_jupytext_file fs)
                 (sorted (glob_suffix fs team_dir (lit ".py"))) files in
  files.

(** The body of the loop over the entries of the team source directory. *)
Definition discover_step (fs : node) (teams : list Team) (team_dir : Path)
    : list Team :=
  if negb (is_dir fs team_dir) then teams
  else if startswith (name_of team_dir) (lit ".")
          || bool_decide (name_of team_dir ∈ skip_dirs) then teams
  else
    let files := team_files fs team_dir in
    match files with
    | [] => teams
    | _ :: _ =>
        teams ++ [{| team_name := name_of team_dir;
                     team_path := team_dir;
                     files := files |}]
    end.

Definition discover_team_projects (fs : node) (team_src_dir : Path)
    : exn + list Team :=
  let teams := [] in
  if negb (exists_ fs team_src_dir) then inr teams
  else
    match iterdir fs team_src_dir with
    | inl e => inl e
    | inr entries => inr (foldl (discover_step fs) teams (sorted entries))
    end.

(** *** Effects: console, filesystem and subprocesses *)

(** What launching an external program can come to: the executable is not
    found ([FileNotFoundError]), the launch fails otherwise (another
    [OSError]), or the program runs to completion, leaving an exit code,
    its two output streams and the filesystem as it has changed it. *)
Inductive outcome :=
| NotFound
| LaunchError
| Completed (returncode : Z) (stdout stderr : text) (disk' : node).

(** The state of a run: the filesystem, the lines printed so far and the
    subprocesses launched so far (arguments and working directory). *)
Record World := mkWorld {
  disk : node;
  console : list text;
  launched : list (list text * option Path)
}.

(** The platform: how external programs behave, which may depend on
    everything that happened before, and how an exception prints. *)
Record OS := mkOS {
  os_run : World -> list text -> option Path -> outcome;
  str_exn : exn -> text
}.

(** A computation returns, raises an exception, or ends the process
    ([SystemExit]). *)
Inductive result (A : Type) :=
| Ret (a : A)
| Raise (e : exn)
| Exit (status : Z).
Arguments Ret {A} a.
Arguments Raise {A} e.
Arguments Exit {A} status.

Definition M (A : Type) : Type := World -> result A * World.

#[export] Instance M_ret : MRet M := fun A a w => (Ret a, w).
#[export] Instance M_bind : MBind M := fun A B k c w =>
  match c w with
  | (Ret a, w') => k a w'
  | (Raise e, w') => (Raise e, w')
  | (Exit n, w') => (Exit n, w')
  end.

(** [print(s)] *)
Definition print (s : text) : M unit := fun w =>
  (Ret tt, {| disk := disk w; console := console w ++ [s];
              launched := launched w |}).

(** [raise] the exception of a failed filesystem operation. *)
Definition lift_exn {A} (r : exn + A) : M A := fun w =>
  match r with
  | inr a => (Ret a, w)
  | inl e => (Raise e, w)
  end.

Definition path_exists (p : Path) : M bool := fun w =>
  (Ret (exists_ (disk w) p), w).

Definition path_read_text (p : Path) : M text := fun w =>
  lift_exn (read_text (disk w) p) w.

Definition path_write_text (p : Path) (data : text) : M unit := fun w =>
  match write_node p data (disk w) with
  | inr d => (Ret tt, {| disk := d; console := console w;
                          launched := launched w |})
  | inl e => (Raise e, w)
  end.

(** [subprocess.run(argv, cwd=cwd, capture_output=True, text=True)],
    returning the exit code and the two captured streams. *)
Definition subprocess_run (os : OS) (argv : list text) (cwd : option Path)
    : M (Z * text * text) := fun w =>
  let w1 := {| disk := disk w; console := console w;
               launched := launched w ++ [(argv, cwd)] |} in
  match os_run os w argv cwd with
  | NotFound => (Raise FileNotFoundError, w1)
  | LaunchError => (Raise PermissionError, w1)
  | Completed rc so se d =>
      (Ret (rc, so, se),
       {| disk := d; console := console w1; launched := launched w1 |})
  end.

(** [try: body except E as e: handler(e)], where [handles] tells the
    exceptions of class [E]. *)
Definition try_except {A} (body : M A) (handles : exn -> bool)
    (handler : exn -> M A) : M A := fun w =>
  match body w with
  | (Raise e, w') => if handles e then handler e w' else (Raise e, w')
  | r => r
  end.

(** [sys.exit(n)] *)
Definition sys_exit {A} (n : Z) : M A := fun w => (Exit n, w).

Definition is_FileNotFoundError (e : exn) : bool :=
  match e with FileNotFoundError => true | _ => false end.
(** Every exception of the model is an [Exception]. *)
Definition is_Exception (e : exn) : bool := true.

(** [for x in xs: body(x)] *)
Fixpoint for_each {A} (xs : list A) (body : A -> M unit) : M unit :=
  match xs with
  | [] => mret tt
  | x :: xs' => body x ;; for_each xs' body
  end.

(** Filesystem queries fail with an exception or give a value. *)
#[export] Instance exn_ret : MRet (sum exn) := fun A a => inr a.
#[export] Instance exn_bind : MBind (sum exn) := fun A B k c =>
  match c with
  | inr a => k a
  | inl e => inl e
  end.

(** [for x in xs: acc = body(acc, x)], where the body may raise. *)
Fixpoint for_acc {A S} (xs : list A) (body : S -> A -> exn + S) (acc : S)
    : exn + S :=
  match xs with
  | [] => inr acc
  | x :: xs' =>
      match body acc x with
      | inr acc' => for_acc xs' body acc'
      | inl e => inl e
      end
  end.

Definition nl : text := [newline].
Definition quote : text := [34%N].
Definition mdash : text := [8212%N].

(** *** Format conversion: the manual transform *)

Definition is_marker_line (line : text) : bool :=
  bool_decide (strip line = lit "# ---").

(** A line of the metadata block without its comment prefix. *)
Definition yaml_line_of (line : text) : text :=
  if startswith line (lit "# ") then drop 2 line
  else if startswith line (lit "#") then drop 1 line
  else line.

(** The first loop of [manual_jupytext_to_qmd]: the lines between the
    first two marker lines; the loop ends at the second one. *)
Fixpoint extract_yaml (lines : list text) (in_yaml_header : bool)
    (yaml_content : list text) : list text :=
  match lines with
  | [] => yaml_content
  | line :: rest =>
      if is_marker_line line && negb in_yaml_header
      then extract_yaml rest true yaml_content
      else if is_marker_line line && in_yaml_header
      then yaml_content
      else if in_yaml_header
      then extract_yaml rest in_yaml_header (yaml_content ++ [yaml_line_of line])
      else extract_yaml rest in_yaml_header yaml_content
  end.

(** The variables of the second loop. *)
Record scan := mkScan {
  qmd_lines : list text;
  in_code_block : bool;
  skip_header : bool;
  header_end_count : Z
}.

Definition emit (st : scan) (l : text) (code : bool) : scan :=
  {| qmd_lines := qmd_lines st ++ [l]; in_code_block := code;
     skip_header := skip_header st;
     header_end_count := header_end_count st |}.

(** The body of the second loop, on one line. *)
Definition body_step (st : scan) (line : text) : scan :=
  if skip_header st then
    if is_marker_line line then
      let count := (header_end_count st + 1)%Z in
      {| qmd_lines := qmd_lines st; in_code_block := in_code_block st;
         skip_header := if (2 <=? count)%Z then false else skip_header st;
         header_end_count := count |}
    else st
  else if startswith line (lit "# %% [markdown]") then
    if in_code_block st then emit st (lit "```" ++ nl) false else st
  else if startswith line (lit "# %%") then
    if negb (in_code_block st) then emit st (nl ++ lit "```{python}") true
    else st
  else if negb (in_code_block st) && startswith line (lit "# ") then
    emit st (drop 2 line) (in_code_block st)
  else if in_code_block st then emit st line (in_code_block st)
  else if bool_decide (strip line = []) then emit st [] (in_code_block st)
  else st.

(** The lines [qmd_lines] that the manual transform joins and writes, for
    a file of stem [stem_] and text [content]. *)
Definition manual_qmd_lines (stem_ : text) (content : text) : list text :=
  let lines := split_nl content in
  let qmd := [lit "---"] in
  let yaml_content := extract_yaml lines false [] in
  let qmd :=
    match yaml_content with
    | [] => qmd ++ [lit "title: " ++ quote ++ stem_ ++ quote]
    | _ :: _ => qmd ++ yaml_content
    end in
  let qmd := qmd ++ [lit "---" ++ nl] in
  let st := foldl body_step
              {| qmd_lines := qmd; in_code_block := false;
                 skip_header := true; header_end_count := 0 |} lines in
  if in_code_block st then qmd_lines st ++ [lit "```"] else qmd_lines st.

Definition manual_qmd_text (stem_ : text) (content : text) : text :=
  join nl (manual_qmd_lines stem_ content).

(** The path [output_dir / f"{py_file.stem}.qmd"]. *)
Definition qmd_target (py_file output_dir : Path) : Path :=
  child output_dir (stem py_file ++ lit ".qmd").

Definition manual_jupytext_to_qmd (os : OS) (py_file output_dir : Path)
    : M (option Path) :=
  try_except
    (content ← path_read_text py_file;
     let output_file := qmd_target py_file output_dir in
     path_write_text output_file (manual_qmd_text (stem py_file) content) ;;
     print (lit "  Converted (manual): " ++ name_of py_file ++ lit " -> "
            ++ name_of output_file) ;;
     mret (Some output_file))
    is_Exception
    (fun e =>
       print (lit "  Error converting " ++ name_of py_file ++ lit ": "
              ++ str_exn os e) ;;
       mret None).

(** *** Format conversion: the external converter *)

Definition jupytext_argv (py_file output_file : Path) : list text :=
  [lit "jupytext"; lit "--to"; lit "qmd"; lit "-o";
   path_str output_file; path_str py_file].

Definition convert_jupytext_to_qmd (os : OS) (py_file output_dir : Path)
    : M (option Path) :=
  try_except
    (let output_file := qmd_target py_file output_dir in
     '(returncode, _, stderr) ←
        subprocess_run os (jupytext_argv py_file output_file) None;
     output_exists ← path_exists output_file;
     if (returncode =? 0)%Z && output_exists then
       print (lit "  Converted: " ++ name_of py_file ++ lit " -> "
              ++ name_of output_file) ;;
       mret (Some output_file)
     else
       print (lit "  Warning: jupytext conversion failed for "
              ++ name_of py_file) ;;
       print (lit "    " ++ stderr) ;;
       mret None)
    is_FileNotFoundError
    (fun _ => manual_jupytext_to_qmd os py_file output_dir).

(** *** Configuration and landing page *)

(** [f"{path.relative_to(root)}"]; [ValueError] when [path] is not below
    [root]. *)
Definition rel_path_str (root p : Path) : exn + text :=
  match relative_to p root with
  | Some r => inr (rel_str r)
  | None => inl ValueError
  end.

(** The text whose lines are [ls], each ended by a newline. *)
Definition unlines (ls : list text) : text := flat_map (fun l => l ++ nl) ls.

Definition config_head : text := unlines
  [lit "project:";
   lit "  type: website";
   lit "  output-dir: docs";
   [];
   lit "website:";
   lit "  title: " ++ quote ++ lit "DataDive 2025" ++ quote;
   lit "  description: " ++ quote
     ++ lit "World Bank Data Dive - Data Community DC" ++ quote;
   lit "  navbar:";
   lit "    left:";
   lit "      - href: index.qmd";
   lit "        text: Home";
   lit "      - href: Team_Projects/README.md";
   lit "        text: Projects";
   lit "  sidebar:";
   lit "    - title: " ++ quote ++ lit "Team Projects" ++ quote;
   lit "      style: " ++ quote ++ lit "docked" ++ quote;
   lit "      contents:"].

Definition config_tail : text := unlines
  [[];
   lit "format:";
   lit "  html:";
   lit "    theme: cosmo";
   lit "    toc: true";
   lit "    toc-depth: 3";
   lit "    code-fold: true";
   lit "    code-tools: true";
   lit "    highlight-style: github";
   [];
   lit "execute:";
   lit "  freeze: auto";
   lit "  echo: true";
   lit "  warning: false"].

(** The navigation line of one file. *)
Definition nav_line (rel_path : text) : text := lit "          - " ++ rel_path.

(** The navigation section of one team. *)
Definition nav_section (team_name_ : text) (team_files_ : list text) : text :=
  lit "        - section: " ++ quote ++ team_name_ ++ quote ++ nl
  ++ lit "          contents:" ++ nl
  ++ join nl team_files_.

Definition generate_quarto_yml (root : Path) (teams : list Team) : exn + text :=
  team_entries ←
    for_acc teams
      (fun team_entries team =>
         team_files_ ←
           for_acc (files team)
             (fun team_files_ f =>
                rel_path ← rel_path_str root (path f);
                mret (team_files_ ++ [nav_line rel_path]))
             [];
         match team_files_ with
         | [] => mret team_entries
         | _ :: _ =>
             mret (team_entries ++ [nav_section (team_name team) team_files_])
         end)
      [];
  let sidebar_contents :=
    match team_entries with
    | [] => lit "        - Team_Projects/README.md"
    | _ :: _ => join nl team_entries
    end in
  mret (config_head ++ sidebar_contents ++ nl ++ config_tail).

(** The link line of one file on the landing page. *)
Definition link_line (name_ rel_path : text) : text :=
  lit "- [" ++ name_ ++ lit "](" ++ rel_path ++ lit ")" ++ nl.

Definition create_index_qmd (fs : node) (root : Path) (teams : list Team)
    : exn + text :=
  let index_html := child root (lit "index.html") in
  let title := lit "Data Dive 2025" in
  let description := lit "Welcome to the 2025 World Bank Data Dive!" in
  let body_content := [] in
  '(title, body_content) ←
    (if exists_ fs index_html then
       html_content ← read_text fs index_html;
       let title :=
         if contains (lit "<title>") html_content
            && contains (lit "</title>") html_content
         then
           let start := (find html_content (lit "<title>") + 7)%Z in
           let end_ := find html_content (lit "</title>") in
           replace (slice html_content start end_) (lit "&mdash;") mdash
         else title in
       let body_content :=
         if contains (lit "<body>") html_content then
           let body_start := (find html_content (lit "<body>") + 6)%Z in
           let body_end :=
             if contains (lit "</body>") html_content
             then find html_content (lit "</body>")
             else Z.of_nat (length html_content) in
           let body_html := slice html_content body_start body_end in
           let body_content := body_html in
           let body_content := replace body_content (lit "<h1>") (nl ++ lit "## ") in
           let body_content := replace body_content (lit "</h1>") nl in
           let body_content := replace body_content (lit "<p>") nl in
           let body_content := replace body_content (lit "</p>") nl in
           strip body_content
         else body_content in
       mret (title, body_content)
     else mret (title, body_content));
  team_links ←
    match teams with
    | [] => mret []
    | _ :: _ =>
        for_acc teams
          (fun team_links team =>
             let team_links :=
               team_links ++ lit "### " ++ team_name team ++ nl ++ nl in
             team_links ←
               for_acc (files team)
                 (fun team_links f =>
                    rel_path ← rel_path_str root (path f);
                    mret (team_links ++ link_line (name f) rel_path))
                 team_links;
             mret (team_links ++ nl))
          (nl ++ lit "## Team Projects" ++ nl ++ nl)
    end;
  mret (lit "---" ++ nl
        ++ lit "title: " ++ quote ++ title ++ quote ++ nl
        ++ lit "---" ++ nl ++ nl
        ++ body_content ++ nl ++ nl
        ++ team_links ++ nl).

(** *** Orchestration and render invocation *)

(** [str(n)] for an integer. *)
Definition str_int (n : Z) : text := lit (NilZero.string_of_int (Z.to_int n)).

Definition kind_str (k : kind) : text :=
  match k with
  | markdown => lit "markdown"
  | quarto => lit "quarto"
  | notebook => lit "notebook"
  | jupytext => lit "jupytext"
  end.

Definition get_root_dir (script_dir cwd : Path) : Path :=
  if bool_decide (name_of script_dir = lit "workflows")
     && bool_decide (name_of (parent script_dir) = lit ".github")
  then parent (parent script_dir)
  else cwd.

Definition run_quarto_render (os : OS) (root : Path) : M bool :=
  print (nl ++ lit "Running Quarto render...") ;;
  try_except
    ('(returncode, stdout, stderr) ←
        subprocess_run os [lit "quarto"; lit "render"] (Some root);
     match stdout with
     | [] => mret tt
     | _ :: _ => print stdout
     end ;;
     if negb (returncode =? 0)%Z then
       print (lit "Quarto render failed with exit code " ++ str_int returncode) ;;
       match stderr with
       | [] => mret tt
       | _ :: _ => print (lit "Error: " ++ stderr)
       end ;;
       mret false
     else
       print (lit "Quarto render completed successfully!") ;;
       mret true)
    is_FileNotFoundError
    (fun _ =>
       print (lit "Error: Quarto CLI not found. Please install Quarto from https://quarto.org/docs/get-started/") ;;
       mret false).

(** The conversion of one file entry in [build_site]: the entry is
    updated only when the conversion returns a path. *)
Definition convert_file (os : OS) (f : Doc) : M Doc :=
  if bool_decide (type f = jupytext) then
    qmd_path ← convert_jupytext_to_qmd os (path f) (parent (path f));
    match qmd_path with
    | Some q => mret {| path := q; type := quarto; name := name f |}
    | None => mret f
    end
  else mret f.

Fixpoint convert_files (os : OS) (fs : list Doc) : M (list Doc) :=
  match fs with
  | [] => mret []
  | f :: rest =>
      f' ← convert_file os f;
      rest' ← convert_files os rest;
      mret (f' :: rest')
  end.

Fixpoint convert_teams (os : OS) (teams : list Team) : M (list Team) :=
  match teams with
  | [] => mret []
  | team :: rest =>
      files' ← convert_files os (files team);
      rest' ← convert_teams os rest;
      mret ({| team_name := team_name team; team_path := team_path team;
               files := files' |} :: rest')
  end.

Definition quarto_yml_path (root : Path) : Path := child root (lit "_quarto.yml").
Definition index_qmd_path (root : Path) : Path := child root (lit "index.qmd").

(** [build_site] up to the two generated files (lines 359 to 397 of the
    script); it returns the root directory. *)
Definition build_site_generate (os : OS) (script_dir cwd : Path) : M Path :=
  let root := get_root_dir script_dir cwd in
  let team_src_dir := child root (lit "Team_Projects") in
  print (lit "Building site from: " ++ path_str root) ;;
  print (lit "Team projects directory: " ++ path_str team_src_dir) ;;
  print (nl ++ lit "Discovering team projects...") ;;
  teams ← (fun w => lift_exn (discover_team_projects (disk w) team_src_dir) w);
  for_each teams (fun team =>
    print (lit "  Found: " ++ team_name team ++ lit " ("
           ++ str_int (Z.of_nat (length (files team))) ++ lit " files)") ;;
    for_each (files team) (fun f =>
      print (lit "    - " ++ name_of (path f) ++ lit " ("
             ++ kind_str (type f) ++ lit ")"))) ;;
  print (nl ++ lit "Processing Jupytext files...") ;;
  teams ← convert_teams os teams;
  print (nl ++ lit "Generating _quarto.yml...") ;;
  quarto_yml ← lift_exn (generate_quarto_yml root teams);
  path_write_text (quarto_yml_path root) quarto_yml ;;
  print (lit "Created: " ++ path_str (quarto_yml_path root)) ;;
  print (nl ++ lit "Generating index.qmd...") ;;
  index_qmd ← (fun w => lift_exn (create_index_qmd (disk w) root teams) w);
  path_write_text (index_qmd_path root) index_qmd ;;
  print (lit "Created: " ++ path_str (index_qmd_path root)) ;;
  mret root.

(** The rest of [build_site] (lines 399 to 406): the render step and the
    final report. *)
Definition build_site_render (os : OS) (root : Path) : M unit :=
  success ← run_quarto_render os root;
  if (success : bool) then
    print (nl ++ lit "Build complete! Output in: "
           ++ path_str (child root (lit "docs")))
  else
    print (nl ++ lit "Build failed!") ;;
    sys_exit 1.

Definition build_site (os : OS) (script_dir cwd : Path) : M unit :=
  root ← build_site_generate os script_dir cwd;
  build_site_render os root.

(** The process: an uncaught exception ends it with status 1 and a
    normal return with status 0. *)
Definition exit_status {A} (r : result A) : Z :=
  match r with
  | Ret _ => 0
  | Raise _ => 1
  | Exit n => n
  end.

End Build.
Export Build.

(** * Notions used by the statements *)

Module Notions.

(** The extension groups, in the order in which discovery collects them. *)
Definition ext_rank (k : kind) : nat :=
  match k with
  | markdown => 0
  | quarto => 1
  | notebook => 2
  | jupytext => 3
  end.

Definition extension (k : kind) : text :=
  match k with
  | markdown => lit ".md"
  | quarto => lit ".qmd"
  | notebook => lit ".ipynb"
  | jupytext => lit ".py"
  end.

(** The entry [fname] of directory [dir] is a recognized document of kind
    [k]: it exists, its name ends with the extension of [k] and, for a
    [.py] file, it is convertible. *)
Definition recognized (fs : node) (dir : Path) (fname : text) (k : kind) : Prop :=
  exists_ fs (child dir fname) = true /\
  endswith fname (extension k) = true /\
  (k = jupytext -> is_jupytext_file fs (child dir fname) = true).

(** The document entry that discovery makes of a recognized document. *)
Definition doc_of (dir : Path) (fname : text) (k : kind) : Doc :=
  {| path := child dir fname; type := k; name := stem_of_name fname |}.

(** The order of the documents of a team: by extension group, then by
    file name. *)
Definition doc_lt (d1 d2 : Doc) : Prop :=
  ext_rank (type d1) < ext_rank (type d2) \/
  (type d1 = type d2 /\ text_lt (name_of (path d1)) (name_of (path d2))).

Definition hidden (n : text) : Prop := startswith n (lit ".") = true.

(** The entry [n] of the team source directory is a team directory: a
    directory that is neither hidden nor on the denylist. *)
Definition is_team_dir (fs : node) (src : Path) (n : text) : Prop :=
  is_dir fs (child src n) = true /\ ~ hidden n /\ (n ∉ skip_dirs).

#[export] Instance hidden_dec n : Decision (hidden n).
Proof. unfold hidden. apply _. Defined.

#[export] Instance Doc_eq_dec : EqDecision Doc.
Proof. solve_decision. Defined.

(** The condition that one loop of discovery puts on the files of an
    extension group. *)
Definition keep_of (fs : node) (k : kind) : Path -> bool :=
  match k with
  | jupytext => is_jupytext_file fs
  | _ => fun _ => true
  end.

(** The documents of one extension group of a team directory. *)
Definition group (fs : node) (dir : Path) (k : kind) : list Doc :=
  (fun p => {| path := p; type := k; name := stem p |}) <$>
  filter (fun p => keep_of fs k p = true)
    (sorted (glob_suffix fs dir (extension k))).

(** The entries of the team source directory that discovery keeps. *)
Definition kept (fs : node) (p : Path) : Prop :=
  is_dir fs p = true /\ ~ hidden (name_of p) /\ (name_of p ∉ skip_dirs) /\
  team_files fs p <> [].

#[export] Instance kept_dec fs p : Decision (kept fs p).
Proof. unfold kept. apply _. Defined.

Definition team_of (fs : node) (p : Path) : Team :=
  {| team_name := name_of p; team_path := p; files := team_files fs p |}.

(** The world once a launch of [argv] has been recorded. *)
Definition logged (w : World) (argv : list text) (cwd : option Path) : World :=
  {| disk := disk w; console := console w;
     launched := launched w ++ [(argv, cwd)] |}.

(** The lines printed between the worlds [w] and [w']. *)
Definition new_lines (w w' : World) : list text :=
  drop (length (console w)) (console w').

(** The two messages that only the manual transform prints. *)
Definition manual_marker (l : text) : bool :=
  startswith l (lit "  Converted (manual): ")
  || startswith l (lit "  Error converting ").

(** The metadata line that the manual transform makes up from the stem. *)
Definition title_line (stem_ : text) : text :=
  lit "title: " ++ quote ++ stem_ ++ quote.

(** The number of lines of a text that strip to the marker line. *)
Definition marker_count (content : text) : nat :=
  length (filter (fun l => is_marker_line l = true) (split_nl content)).

(** The path [p] lies below [root]. *)
Definition below (root p : Path) : Prop := is_Some (relative_to p root).

(** The root-relative path of [p], as text. *)
Definition rel_of (root p : Path) : text :=
  match relative_to p root with
  | Some r => rel_str r
  | None => []
  end.

(** The landing page as the specification describes it: one link per
    document, with its display name and root-relative path; one heading
    per team, followed by its links; the "Team Projects" section, present
    when there is a team. *)
Definition link_of (root : Path) (f : Doc) : text :=
  lit "- [" ++ name f ++ lit "](" ++ rel_of root (path f) ++ lit ")" ++ nl.

Definition team_block (root : Path) (t : Team) : text :=
  lit "### " ++ team_name t ++ nl ++ nl
  ++ concat (link_of root <$> files t) ++ nl.

Definition team_section (root : Path) (teams : list Team) : text :=
  match teams with
  | [] => []
  | _ :: _ =>
      nl ++ lit "## Team Projects" ++ nl ++ nl
      ++ concat (team_block root <$> teams)
  end.

(** The metadata block of the landing page with the default title. *)
Definition default_front_matter : text :=
  lit "---" ++ nl ++ lit "title: " ++ quote ++ lit "Data Dive 2025" ++ quote
  ++ nl ++ lit "---" ++ nl.

Definition default_description : text :=
  lit "Welcome to the 2025 World Bank Data Dive!".

(** The text [t] holds [l] at two places that do not overlap. *)
Definition twice (l t : text) : Prop :=
  exists a b c, t = a ++ l ++ b ++ l ++ c.

(** What a loop that appends the results of [g] accumulates: the results
    in order, or the first exception. *)
Fixpoint gather {A S} (g : A -> exn + list S) (xs : list A) : exn + list S :=
  match xs with
  | [] => inr []
  | x :: xs' =>
      match g x with
      | inl e => inl e
      | inr y =>
          match gather g xs' with
          | inl e => inl e
          | inr ys => inr (y ++ ys)
          end
      end
  end.

(** The navigation lines of the files of a team, and its section. *)
Definition nav_of (root : Path) (f : Doc) : exn + list text :=
  match rel_path_str root (path f) with
  | inr rel => inr [nav_line rel]
  | inl e => inl e
  end.

Definition section_of (root : Path) (t : Team) : exn + list text :=
  match gather (nav_of root) (files t) with
  | inl e => inl e
  | inr [] => inr []
  | inr (l :: ls) => inr [nav_section (team_name t) (l :: ls)]
  end.

(** The link lines of the files of a team, and its block. *)
Definition links_of (root : Path) (f : Doc) : exn + text :=
  match rel_path_str root (path f) with
  | inr rel => inr (link_line (name f) rel)
  | inl e => inl e
  end.

Definition block_of (root : Path) (t : Team) : exn + text :=
  match gather (links_of root) (files t) with
  | inl e => inl e
  | inr links => inr (lit "### " ++ team_name t ++ nl ++ nl ++ links ++ nl)
  end.

(** The team links of the landing page, and the page made of a title, a
    body and the team links. *)
Definition team_links_of (root : Path) (teams : list Team) : exn + text :=
  match teams with
  | [] => inr []
  | _ :: _ =>
      match gather (block_of root) teams with
      | inl e => inl e
      | inr blocks => inr (nl ++ lit "## Team Projects" ++ nl ++ nl ++ blocks)
      end
  end.

Definition page (title body_content team_links : text) : text :=
  lit "---" ++ nl ++ lit "title: " ++ quote ++ title ++ quote ++ nl
  ++ lit "---" ++ nl ++ nl ++ body_content ++ nl ++ nl ++ team_links ++ nl.

(** Re-scanning a markup text for code regions: a line that begins with
    a fence of three backticks opens a code region when none is open and
    closes the open one otherwise.  [rescan t] tells whether a code region
    is still open at the end of [t]. *)
Definition is_fence (l : text) : bool := startswith l (lit "```").



(** A source line without stray marker: no fence at its beginning, nor
    behind a comment prefix of one or two characters. *)
Definition no_stray_fence (line : text) : Prop :=
  is_fence line = false /\ is_fence (drop 1 line) = false /\
  is_fence (drop 2 line) = false.





#[export] Instance no_stray_fence_dec l : Decision (no_stray_fence l).
Proof. unfold no_stray_fence. apply _. Defined.

#[export] Instance below_dec root p : Decision (below root p).
Proof. unfold below. apply _. Defined.

End Notions.
Export Notions.

(** * A sample project *)

Module Samples.

Definition file (s : string) : node := File (Some (lit s)).

(** A notebook in the percent format. *)
Definition notebook_py : text :=
  lit "# ---" ++ nl ++ lit "# jupytext:" ++ nl
  ++ lit "#   formats: py:percent" ++ nl ++ lit "# ---" ++ nl
  ++ lit "# %% [markdown]" ++ nl ++ lit "# Findings" ++ nl
  ++ lit "# %%" ++ nl ++ lit "x = 1".


(** A team directory with a document [x.qmd], a convertible [x.py] of
    the same stem, a markdown file and a plain script. *)
Definition alpha_dir : node :=
  Dir (list_to_map
         [(lit "x.qmd", file "old");
          (lit "x.py", File (Some notebook_py));
          (lit "notes.md", file "notes");
          (lit "plain.py", file "print(1)")]).

Definition projects_dir : node :=
  Dir (list_to_map
         [(lit "Alpha", alpha_dir);
          (lit ".git", alpha_dir);
          (lit "data", alpha_dir);
          (lit "Beta", Dir ∅);
          (lit "README.md", file "readme")]).

Definition sample_disk : node :=
  Dir (list_to_map
         [(lit "repo", Dir (list_to_map [(lit "Team_Projects", projects_dir)]))]).

Definition sample_root : Path := [lit "repo"].
Definition sample_src : Path := child sample_root (lit "Team_Projects").
Definition sample_team_dir : Path := child sample_src (lit "Alpha").
Definition sample_script_dir : Path :=
  [lit "repo"; lit ".github"; lit "workflows"].

Definition sample_world : World :=
  {| disk := sample_disk; console := []; launched := [] |}.

(** A platform without the converter and the renderer. *)
Definition no_tools : OS :=
  {| os_run := fun _ _ _ => NotFound; str_exn := fun _ => lit "error" |}.

(** A platform whose tools run, change nothing and exit with code 1. *)
Definition failing_tools : OS :=
  {| os_run := fun w _ _ => Completed 1 [] (lit "failed") (disk w);
     str_exn := fun _ => lit "error" |}.

Definition sample_teams : list Team :=
  match discover_team_projects sample_disk sample_src with
  | inr teams => teams
  | inl _ => []
  end.

End Samples.
Export Samples.

(** * Notions used by the further properties *)

Module MoreNotions.

(** Every document of every team lies below [root]. *)
Definition all_below (root : Path) (teams : list Team) : Prop :=
  Forall (fun t => Forall (fun f => below root (path f)) (files t)) teams.

#[export] Instance all_below_dec root teams : Decision (all_below root teams).
Proof. unfold all_below. apply _. Defined.

(** The navigation section of a team as the configuration shows it, and
    the sidebar: the sections of the teams that have files, or the
    fallback link when there is none. *)
Definition section_text (root : Path) (t : Team) : text :=
  nav_section (team_name t)
    ((fun f => nav_line (rel_of root (path f))) <$> files t).

Definition sidebar_of (root : Path) (teams : list Team) : text :=
  match section_text root <$> filter (fun t => files t <> []) teams with
  | [] => lit "        - Team_Projects/README.md"
  | s :: ss => join nl (s :: ss)
  end.

(** The pattern [p] occurs in [s] at position [i] and not before. *)
Definition first_at (p s : text) (i : nat) : Prop :=
  startswith (drop i s) p = true /\
  forall j, j < i -> startswith (drop j s) p = false.

(** What a markdown cell makes of one of its lines: the text behind the
    comment prefix, an empty line for a blank line, nothing otherwise. *)
Definition markdown_line (line : text) : option text :=
  if startswith line (lit "# ") then Some (drop 2 line)
  else if bool_decide (strip line = []) then Some []
  else None.

(** The document path [p] is an entry of a team directory of [src]. *)
Definition in_team_dir (src p : Path) : Prop :=
  exists n f, p = child (child src n) f.

(** [first_at], computed. *)
Definition first_atb (p s : text) (i : nat) : bool :=
  startswith (drop i s) p
  && forallb (fun j => negb (startswith (drop j s) p)) (seq 0 i).

(** A sample root with a legacy HTML file. *)
Definition legacy_html : text :=
  lit "<html><head><title>Data Dive &mdash; 2025</title></head></html>".

Definition legacy_disk : node :=
  Dir (list_to_map
         [(lit "repo", Dir (list_to_map [(lit "index.html", File (Some legacy_html))]))]).

End MoreNotions.
Export MoreNotions.

(** * Properties *)

(** ** Text operations *)

Section TextFacts.

Implicit Types (s p : text) (c : char).

Lemma startswith_spec s p :
  startswith s p = true <-> exists post, s = p ++ post.
Proof.
  revert s. induction p as [|c p IH]; intros s; simpl.
  - split; [intros _; by exists s|done].
  - destruct s as [|d s]; simpl.
    + split; [done|]. intros [post ?]. discriminate.
    + rewrite andb_true_iff, N.eqb_eq, IH. split.
      * intros [-> [post ->]]. eauto.
      * intros [post [= -> ->]]. eauto.
Qed.

Lemma startswith_app p post : startswith (p ++ post) p = true.
Proof. apply startswith_spec. eauto. Qed.

Lemma startswith_nil_false c p : startswith [] (c :: p) = false.
Proof. done. Qed.

Lemma contains_spec p s : contains p s = true <-> occurs p s.
Proof.
  unfold occurs. induction s as [|d s IH]; simpl.
  - rewrite orb_false_r, startswith_spec. split.
    + intros [post ?]. exists [], post. done.
    + intros (pre & post & E). symmetry in E.
      apply app_eq_nil in E as [-> E]. apply app_eq_nil in E as [-> ->].
      exists []. done.
  - rewrite orb_true_iff, startswith_spec, IH. split.
    + intros [[post E]|(pre & post & E)].
      * exists [], post. done.
      * exists (d :: pre), post. simpl. by rewrite E.
    + intros (pre & post & E). destruct pre as [|d' pre]; simpl in E.
      * left. eauto.
      * right. injection E as -> E. eauto.
Qed.

Lemma contains_take_spec p k s :
  contains p (take k s) = true <-> occurs_within p k s.
Proof.
  rewrite contains_spec. unfold occurs, occurs_within. split.
  - intros (pre & post & E). exists pre, (post ++ drop k s). split.
    + rewrite <- (take_drop k s) at 1. rewrite E. by rewrite <- !app_assoc.
    + assert (length (take k s) <= k) by (rewrite length_take; lia).
      rewrite E, !length_app in H. lia.
  - intros (pre & post & -> & Hk).
    exists pre, (take (k - (length pre + length p)) post).
    rewrite !take_app.
    replace (take k pre) with pre by (symmetry; apply take_ge; lia).
    replace (take (k - length pre) p) with p by (symmetry; apply take_ge; lia).
    by replace (k - length pre - length p) with (k - (length pre + length p)) by lia.
Qed.

End TextFacts.

(** ** The convertibility predicate *)

(** C2.  A [.py] file is classified as convertible exactly when it can be
    read, the delimiter token ["# ---"] occurs entirely within the first
    500 characters of its text and the metadata marker token
    ["jupytext:"] occurs entirely within the first 1000 characters; when
    reading the file fails the answer is "not convertible" and no error is
    raised (the predicate is a total boolean function). *)
Theorem is_jupytext_file_spec (fs : node) (py_file : Path) :
  (is_jupytext_file fs py_file = true <->
     exists content,
       read_text fs py_file = inr content /\
       occurs_within (lit "# ---") 500 content /\
       occurs_within (lit "jupytext:") 1000 content) /\
  (forall e, read_text fs py_file = inl e -> is_jupytext_file fs py_file = false).
Proof.
  unfold is_jupytext_file. split.
  - destruct (read_text fs py_file) as [e|content].
    + split; [done|]. intros (c & ? & _). done.
    + rewrite andb_true_iff, !contains_take_spec. split.
      * intros [? ?]. eauto.
      * intros (c & [= <-] & ? & ?). done.
  - intros e ->. done.
Qed.

(** ** The lexicographic order *)

Section LexFacts.

Context {A : Type} `{EqDecision A} (ltb : A -> A -> bool).
Hypothesis ltb_irrefl : forall x, ltb x x = false.
Hypothesis ltb_trans : forall x y z, ltb x y = true -> ltb y z = true -> ltb x z = true.
Hypothesis ltb_total : forall x y, ltb x y = true \/ x = y \/ ltb y x = true.

Lemma lex_leb_cons x y (a b : list A) :
  lex_leb ltb (x :: a) (y :: b) = true <->
  ltb x y = true \/ (x = y /\ lex_leb ltb a b = true).
Proof.
  simpl. rewrite orb_true_iff, andb_true_iff, bool_decide_eq_true. done.
Qed.

Lemma lex_leb_refl (a : list A) : lex_leb ltb a a = true.
Proof. induction a; [done|]. apply lex_leb_cons. auto. Qed.

Lemma lex_leb_total (a b : list A) :
  lex_leb ltb a b = true \/ lex_leb ltb b a = true.
Proof.
  revert b. induction a as [|x a IH]; intros [|y b]; auto.
  rewrite !lex_leb_cons.
  destruct (ltb_total x y) as [?|[->|?]]; auto.
  destruct (IH b); auto.
Qed.

Lemma lex_leb_trans (a b c : list A) :
  lex_leb ltb a b = true -> lex_leb ltb b c = true -> lex_leb ltb a c = true.
Proof.
  revert b c. induction a as [|x a IH]; intros [|y b] [|z c]; try done.
  rewrite !lex_leb_cons. intros [?|[-> ?]] [?|[-> ?]]; eauto.
Qed.

Lemma lex_leb_antisym (a b : list A) :
  lex_leb ltb a b = true -> lex_leb ltb b a = true -> a = b.
Proof.
  revert b. induction a as [|x a IH]; intros [|y b]; try done.
  rewrite !lex_leb_cons. intros [?|[-> ?]] [?|[? ?]].
  - assert (ltb x x = true) by eauto. by rewrite ltb_irrefl in *.
  - subst. by rewrite ltb_irrefl in *.
  - by rewrite ltb_irrefl in *.
  - f_equal. auto.
Qed.

Lemma lex_ltb_spec (a b : list A) :
  lex_ltb ltb a b = true <-> lex_leb ltb a b = true /\ a <> b.
Proof.
  unfold lex_ltb.
  rewrite andb_true_iff, negb_true_iff, bool_decide_eq_false. done.
Qed.

Lemma lex_ltb_irrefl (a : list A) : lex_ltb ltb a a = false.
Proof. unfold lex_ltb. rewrite bool_decide_eq_true_2 by done. apply andb_false_r. Qed.

Lemma lex_ltb_trans (a b c : list A) :
  lex_ltb ltb a b = true -> lex_ltb ltb b c = true -> lex_ltb ltb a c = true.
Proof.
  rewrite !lex_ltb_spec. intros [Hab Hne] [Hbc ?]. split.
  - eauto using lex_leb_trans.
  - intros <-. apply Hne. by apply lex_leb_antisym.
Qed.

Lemma lex_ltb_total (a b : list A) :
  lex_ltb ltb a b = true \/ a = b \/ lex_ltb ltb b a = true.
Proof.
  rewrite !lex_ltb_spec. destruct (decide (a = b)) as [|Hne]; [auto|].
  destruct (lex_leb_total a b); [left|right; right]; split; auto.
Qed.

Lemma lex_leb_app (p a b : list A) :
  lex_leb ltb (p ++ a) (p ++ b) = lex_leb ltb a b.
Proof.
  induction p as [|x p IH]; [done|]. simpl.
  by rewrite ltb_irrefl, bool_decide_eq_true_2, IH.
Qed.

Lemma lex_leb_singleton (x y : A) :
  lex_leb ltb [x] [y] = true <-> ltb x y = true \/ x = y.
Proof.
  rewrite lex_leb_cons. split; [intros [?|[? _]]; auto|].
  intros [?|?]; auto.
Qed.

End LexFacts.

Lemma N_ltb_total (x y : N) : N.ltb x y = true \/ x = y \/ N.ltb y x = true.
Proof. rewrite !N.ltb_lt. lia. Qed.

Lemma N_ltb_trans (x y z : N) :
  N.ltb x y = true -> N.ltb y z = true -> N.ltb x z = true.
Proof. rewrite !N.ltb_lt. lia. Qed.

Lemma text_ltb_irrefl (a : text) : text_ltb a a = false.
Proof. apply lex_ltb_irrefl. Qed.

Lemma text_ltb_trans (a b c : text) :
  text_ltb a b = true -> text_ltb b c = true -> text_ltb a c = true.
Proof.
  unfold text_ltb. intros.
  eapply lex_ltb_trans; eauto using N.ltb_irrefl, N_ltb_trans.
Qed.

Lemma text_ltb_total (a b : text) :
  text_ltb a b = true \/ a = b \/ text_ltb b a = true.
Proof. apply lex_ltb_total, N_ltb_total. Qed.

#[export] Instance text_lt_trans : Transitive text_lt.
Proof. intros a b c. apply text_ltb_trans. Qed.

#[export] Instance path_le_trans : Transitive path_le.
Proof.
  intros a b c. unfold path_le, path_leb. intros.
  eapply lex_leb_trans; eauto using text_ltb_irrefl, text_ltb_trans.
Qed.

#[export] Instance path_le_total : Total path_le.
Proof. intros a b. apply lex_leb_total, text_ltb_total. Qed.

(** Two entries of one directory compare as their names do. *)
Lemma path_le_child (p : Path) (a b : text) :
  path_le (child p a) (child p b) <-> text_lt a b \/ a = b.
Proof.
  unfold path_le, path_leb, child.
  rewrite lex_leb_app by apply text_ltb_irrefl.
  apply lex_leb_singleton.
Qed.

(** ** Lists: loops that append, and sorted lists *)

Section ListFacts.

Context {A B : Type}.

(** A loop that appends [h x] for the elements [x] that satisfy [P]. *)
Lemma foldl_filter_fmap (f : list A -> B -> list A) (P : B -> Prop)
    `{!forall x, Decision (P x)} (h : B -> A) (l : list B) (acc : list A) :
  (forall acc x, f acc x = if decide (P x) then acc ++ [h x] else acc) ->
  foldl f acc l = acc ++ (h <$> filter P l).
Proof.
  intros Hf. revert acc. induction l as [|x l IH]; intros acc; simpl.
  - by rewrite app_nil_r.
  - rewrite IH, Hf, filter_cons. destruct (decide (P x)); [|done].
    by rewrite <- app_assoc.
Qed.

Lemma StronglySorted_filter (R : relation B) (P : B -> Prop)
    `{!forall x, Decision (P x)} (l : list B) :
  StronglySorted R l -> StronglySorted R (filter P l).
Proof.
  induction 1 as [|x l _ IH Hx]; [constructor|].
  rewrite filter_cons. destruct (decide (P x)); [|done].
  constructor; [done|].
  apply Forall_forall. intros y [_ Hy]%list_elem_of_filter.
  rewrite Forall_forall in Hx. auto.
Qed.

Lemma StronglySorted_fmap_2 (f : B -> A) (R : relation A) (l : list B) :
  StronglySorted (fun x y => R (f x) (f y)) l -> StronglySorted R (f <$> l).
Proof.
  induction 1 as [|x l _ IH Hx]; simpl; constructor; [done|].
  by apply Forall_fmap.
Qed.

Lemma StronglySorted_strengthen (R R' : relation B) (l : list B) :
  StronglySorted R l -> NoDup l ->
  (forall x y, x ∈ l -> y ∈ l -> x <> y -> R x y -> R' x y) ->
  StronglySorted R' l.
Proof.
  induction 1 as [|x l _ IH Hx]; intros Hnd HR; [constructor|].
  apply NoDup_cons in Hnd as [Hx' Hnd]. constructor.
  - apply IH; [done|]. intros y z ? ?. apply HR; by right.
  - rewrite Forall_forall in *. intros y Hy. apply HR; auto.
    + by left.
    + by right.
    + by intros ->.
Qed.

End ListFacts.

(** ** Paths and directories *)

Lemma name_of_child (p : Path) (n : text) : name_of (child p n) = n.
Proof. unfold name_of, child. by rewrite last_snoc. Qed.

Lemma parent_child (p : Path) (n : text) : parent (child p n) = p.
Proof. apply removelast_last. Qed.

Lemma stem_child (p : Path) (n : text) : stem (child p n) = stem_of_name n.
Proof. unfold stem. by rewrite name_of_child. Qed.

#[export] Instance child_inj (p : Path) : Inj (=) (=) (child p).
Proof. intros a b E. unfold child in E. by apply app_inj_tail in E as [_ ?]. Qed.

Lemma lookup_path_child (p : Path) (n : text) (fs : node) :
  lookup_path (child p n) fs =
  match lookup_path p fs with
  | Some (Dir es) => es !! n
  | _ => None
  end.
Proof.
  revert fs. induction p as [|c p IH]; intros fs; simpl.
  - destruct fs as [|es]; [done|]. by destruct (es !! n).
  - destruct fs as [|es]; [done|]. destruct (es !! c); [apply IH|done].
Qed.

Lemma is_dir_lookup (fs : node) (p : Path) :
  is_dir fs p = true <-> exists es, lookup_path p fs = Some (Dir es).
Proof.
  unfold is_dir. destruct (lookup_path p fs) as [[|es]|]; split;
    try done; eauto; by intros [? ?].
Qed.

(** The names of the entries of a directory. *)
Lemma elem_of_entry_names (es : gmap text node) (n : text) :
  n ∈ (map_to_list es).*1 <-> is_Some (es !! n).
Proof.
  rewrite list_elem_of_fmap. split.
  - intros ([n' x] & -> & H%elem_of_map_to_list). eauto.
  - intros [x H]. exists (n, x). by rewrite elem_of_map_to_list.
Qed.

Lemma exists_child (fs : node) (p : Path) (es : gmap text node) (n : text) :
  lookup_path p fs = Some (Dir es) ->
  exists_ fs (child p n) = true <-> is_Some (es !! n).
Proof.
  intros Hp. unfold exists_. rewrite lookup_path_child, Hp.
  destruct (es !! n); split; try done; eauto; by intros [? ?].
Qed.

(** Sorting the entries of one directory orders them by name. *)
Lemma sorted_children (dir : Path) (ns : list text) :
  NoDup ns ->
  StronglySorted (fun p q => text_lt (name_of p) (name_of q))
    (sorted (child dir <$> ns)).
Proof.
  intros Hnd. unfold sorted.
  pose proof (merge_sort_Permutation path_le (child dir <$> ns)) as Hperm.
  apply StronglySorted_strengthen with (R := path_le).
  - apply StronglySorted_merge_sort; apply _.
  - rewrite Hperm. by apply (NoDup_fmap_2 _).
  - intros x y Hx Hy Hne Hle. rewrite Hperm in Hx, Hy.
    apply list_elem_of_fmap in Hx as (a & -> & _).
    apply list_elem_of_fmap in Hy as (b & -> & _).
    rewrite !name_of_child. apply path_le_child in Hle as [?| ->]; done.
Qed.

Lemma elem_of_sorted (ps : list Path) (p : Path) : p ∈ sorted ps <-> p ∈ ps.
Proof. unfold sorted. by rewrite merge_sort_Permutation. Qed.

(** ** Project discovery *)

Lemma StronglySorted_mono {A} (R R' : relation A) (l : list A) :
  (forall x y, R x y -> R' x y) -> StronglySorted R l -> StronglySorted R' l.
Proof.
  intros HR. induction 1 as [|x l _ IH Hx]; constructor; [done|].
  eapply Forall_impl; eauto.
Qed.

Lemma collect_eq (k : kind) (keep : Path -> bool) (ps : list Path) (acc : list Doc) :
  collect k keep ps acc =
  acc ++ ((fun p => {| path := p; type := k; name := stem p |}) <$>
          filter (fun p => keep p = true) ps).
Proof.
  unfold collect. apply foldl_filter_fmap. intros fl x.
  destruct (keep x); by destruct (decide _).
Qed.

Lemma team_files_groups (fs : node) (dir : Path) :
  team_files fs dir =
  group fs dir markdown ++ group fs dir quarto ++
  group fs dir notebook ++ group fs dir jupytext.
Proof.
  unfold team_files. rewrite !collect_eq. simpl. by rewrite <- !app_assoc.
Qed.

Lemma glob_elem (fs : node) (dir : Path) (es : gmap text node) (ext : text) (p : Path) :
  lookup_path dir fs = Some (Dir es) ->
  p ∈ glob_suffix fs dir ext <->
  exists f, p = child dir f /\ endswith f ext = true /\ is_Some (es !! f).
Proof.
  intros Hd. unfold glob_suffix. rewrite Hd, list_elem_of_fmap.
  setoid_rewrite list_elem_of_filter. setoid_rewrite elem_of_entry_names.
  done.
Qed.

Lemma keep_of_recognized (fs : node) (k : kind) (p : Path) :
  keep_of fs k p = true <-> (k = jupytext -> is_jupytext_file fs p = true).
Proof. destruct k; simpl; split; intros; first [done|congruence|auto]. Qed.

Lemma group_elem (fs : node) (dir : Path) (k : kind) (d : Doc) :
  is_dir fs dir = true ->
  d ∈ group fs dir k <-> exists f, recognized fs dir f k /\ d = doc_of dir f k.
Proof.
  intros [es Hd]%is_dir_lookup. unfold group, recognized, doc_of.
  rewrite list_elem_of_fmap. setoid_rewrite list_elem_of_filter.
  setoid_rewrite elem_of_sorted. setoid_rewrite (glob_elem _ _ es); [|done].
  setoid_rewrite (exists_child _ _ es); [|done]. split.
  - intros (p & -> & Hk & f & -> & He & Hs). exists f.
    rewrite stem_child. rewrite keep_of_recognized in Hk. repeat split; auto.
  - intros (f & (Hs & He & Hk) & ->). exists (child dir f).
    rewrite stem_child. split; [done|]. split; [by apply keep_of_recognized|].
    eauto.
Qed.

Lemma group_type (fs : node) (dir : Path) (k : kind) (d : Doc) :
  d ∈ group fs dir k -> type d = k.
Proof. unfold group. intros (p & -> & _)%list_elem_of_fmap. done. Qed.

Lemma group_sorted (fs : node) (dir : Path) (k : kind) :
  StronglySorted doc_lt (group fs dir k).
Proof.
  unfold group. apply StronglySorted_fmap_2, StronglySorted_filter.
  apply StronglySorted_mono
    with (R := fun p q => text_lt (name_of p) (name_of q)).
  { intros p q ?. right. done. }
  unfold glob_suffix. destruct (lookup_path dir fs) as [[|es]|];
    try (vm_compute; constructor).
  apply sorted_children, NoDup_filter, NoDup_fst_map_to_list.
Qed.

Lemma team_files_sorted (fs : node) (dir : Path) :
  StronglySorted doc_lt (team_files fs dir).
Proof.
  rewrite team_files_groups.
  assert (forall k1 k2 x y,
            ext_rank k1 < ext_rank k2 ->
            x ∈ group fs dir k1 -> y ∈ group fs dir k2 -> doc_lt x y) as Hcross.
  { intros k1 k2 x y Hlt Hx%group_type Hy%group_type. left. by subst. }
  repeat (apply StronglySorted_app_2; [|apply group_sorted|]);
    [..|apply group_sorted];
    intros x y Hx Hy; rewrite ?elem_of_app in Hy; destruct_or?;
    (eapply Hcross; [|exact Hx|eassumption]; simpl; lia).
Qed.

Lemma team_files_elem (fs : node) (dir : Path) (d : Doc) :
  is_dir fs dir = true ->
  d ∈ team_files fs dir <->
  exists f k, recognized fs dir f k /\ d = doc_of dir f k.
Proof.
  intros Hd. rewrite team_files_groups, !elem_of_app, !group_elem by done.
  split.
  - intros [H|[H|[H|H]]]; destruct H as (f & ? & ?); eauto.
  - intros (f & [] & ? & ?); eauto 6.
Qed.

Lemma discover_step_eq (fs : node) (acc : list Team) (p : Path) :
  discover_step fs acc p =
  if decide (kept fs p) then acc ++ [team_of fs p] else acc.
Proof.
  unfold discover_step, team_of.
  destruct (decide (kept fs p)) as [(Hd & Hh & Hs & Hf)|Hn].
  - rewrite Hd. unfold hidden in Hh. apply not_true_is_false in Hh.
    rewrite Hh, bool_decide_eq_false_2 by done. cbn [negb orb].
    by destruct (team_files fs p).
  - destruct (is_dir fs p) eqn:Hd; cbn [negb]; [|done].
    destruct (startswith (name_of p) (lit ".")) eqn:Hh; cbn [orb]; [done|].
    case_bool_decide; [done|].
    destruct (team_files fs p) eqn:Hf; [done|].
    exfalso. apply Hn. unfold kept, hidden. rewrite Hd, Hh, Hf. done.
Qed.

Lemma discover_eq (fs : node) (src : Path) (es : gmap text node) :
  lookup_path src fs = Some (Dir es) ->
  discover_team_projects fs src =
  inr (team_of fs <$> filter (kept fs) (sorted (child src <$> (map_to_list es).*1))).
Proof.
  intros Hs. unfold discover_team_projects, exists_, iterdir. rewrite Hs. simpl.
  f_equal.
  rewrite (foldl_filter_fmap (discover_step fs) (kept fs) (team_of fs));
    [done|apply discover_step_eq].
Qed.

Lemma discovered_team (fs : node) (src : Path) (es : gmap text node) (t : Team) :
  lookup_path src fs = Some (Dir es) ->
  t ∈ team_of fs <$> filter (kept fs) (sorted (child src <$> (map_to_list es).*1)) <->
  exists n, is_Some (es !! n) /\ kept fs (child src n) /\ t = team_of fs (child src n).
Proof.
  intros Hs. rewrite list_elem_of_fmap. setoid_rewrite list_elem_of_filter.
  setoid_rewrite elem_of_sorted. setoid_rewrite list_elem_of_fmap.
  setoid_rewrite elem_of_entry_names. split.
  - intros (p & -> & Hk & n & -> & Hn). eauto.
  - intros (n & Hn & Hk & ->). eauto 6.
Qed.

(** C1.  When the team source directory is a directory, discovery returns
    a list of teams such that: every team of the list is a team directory
    (a subdirectory neither hidden nor on the denylist) that holds at least
    one recognized document; every team directory that holds a recognized
    document is in the list; the list is strictly sorted by directory name;
    and the documents of a team are exactly its recognized documents,
    ordered by extension group ([.md], [.qmd], [.ipynb], convertible
    [.py]) and, within a group, by file name.  A team directory without a
    recognized document is thus not in the list. *)
Theorem discover_team_projects_spec (fs : node) (src : Path) :
  is_dir fs src = true ->
  exists teams,
    discover_team_projects fs src = inr teams /\
    (forall t, t ∈ teams ->
       is_team_dir fs src (team_name t) /\
       team_path t = child src (team_name t) /\
       exists f k, recognized fs (team_path t) f k) /\
    (forall n, is_team_dir fs src n ->
       (exists f k, recognized fs (child src n) f k) ->
       exists t, t ∈ teams /\ team_name t = n) /\
    StronglySorted text_lt (team_name <$> teams) /\
    (forall t, t ∈ teams ->
       (forall d, d ∈ files t <->
          exists f k, recognized fs (team_path t) f k /\
                      d = doc_of (team_path t) f k) /\
       StronglySorted doc_lt (files t)).
Proof.
  intros [es Hs]%is_dir_lookup. eexists. split; [by apply discover_eq|].
  set (teams := team_of fs <$> _).
  assert (forall t, t ∈ teams ->
            exists n, is_Some (es !! n) /\ kept fs (child src n) /\
                      t = team_of fs (child src n)) as Hinv.
  { intros t Ht. by apply (discovered_team _ _ es) in Ht. }
  split; [|split; [|split]].
  - intros t (n & Hn & (Hd & Hh & Hsk & Hf) & ->)%Hinv. simpl.
    rewrite name_of_child in *. split; [done|]. split; [done|].
    destruct (team_files fs (child src n)) as [|d fl] eqn:E; [done|].
    assert (d ∈ team_files fs (child src n)) as Hin by (rewrite E; left).
    apply team_files_elem in Hin as (f & k & ? & _); eauto.
  - intros n (Hd & Hh & Hsk) (f & k & Hr).
    exists (team_of fs (child src n)). split; [|simpl; apply name_of_child].
    apply (discovered_team _ _ es); [done|]. exists n. split; [|split; [|done]].
    + apply (exists_child fs src es n Hs). unfold exists_.
      apply is_dir_lookup in Hd as [es' ->]. done.
    + unfold kept. rewrite name_of_child. repeat split; try done.
      intros E.
      assert (doc_of (child src n) f k ∈ team_files fs (child src n)) as Hin
        by (apply team_files_elem; eauto).
      rewrite E in Hin. by apply elem_of_nil in Hin.
  - unfold teams. rewrite <- list_fmap_compose.
    apply StronglySorted_fmap_2, StronglySorted_filter.
    simpl. apply sorted_children, NoDup_fst_map_to_list.
  - intros t (n & Hn & (Hd & _) & ->)%Hinv. simpl. split.
    + intros d. by apply team_files_elem.
    + apply team_files_sorted.
Qed.

(** C8.  A directory whose name is on the denylist, or starts with a dot,
    is never a team of the discovery result, whatever it contains: no
    team of the result bears its name or its path. *)
Theorem skipped_dirs_never_discovered (fs : node) (src : Path)
    (teams : list Team) (n : text) :
  discover_team_projects fs src = inr teams ->
  hidden n \/ n ∈ skip_dirs ->
  forall t, t ∈ teams -> team_name t <> n /\ team_path t <> child src n.
Proof.
  intros Hdisc Hn t Ht.
  destruct (lookup_path src fs) as [[|es]|] eqn:Hs.
  - unfold discover_team_projects, exists_, iterdir in Hdisc.
    rewrite Hs in Hdisc. done.
  - rewrite (discover_eq _ _ es Hs) in Hdisc. injection Hdisc as <-.
    apply (discovered_team _ _ es) in Ht as (n' & _ & Hk & ->); [|done].
    simpl. rewrite name_of_child. destruct Hk as (_ & Hh & Hsk & _).
    rewrite name_of_child in Hh, Hsk.
    assert (n' <> n) by (intros ->; by destruct Hn).
    split; [done|]. by intros ?%(inj (child src)).
  - unfold discover_team_projects, exists_ in Hdisc. rewrite Hs in Hdisc.
    simpl in Hdisc. injection Hdisc as <-. by apply elem_of_nil in Ht.
Qed.

(** ** Computations *)

Lemma bind_Ret_inv {A B} (c : M A) (k : A -> M B) (w w' : World) (b : B) :
  (c ≫= k) w = (Ret b, w') ->
  exists a w1, c w = (Ret a, w1) /\ k a w1 = (Ret b, w').
Proof.
  unfold mbind, M_bind. destruct (c w) as [[a|e|n] w1]; intros E;
    [eauto|discriminate..].
Qed.

Lemma bind_Ret {A B} (c : M A) (k : A -> M B) (w w1 : World) (a : A) :
  c w = (Ret a, w1) -> (c ≫= k) w = k a w1.
Proof. unfold mbind, M_bind. by intros ->. Qed.

(** ** Format conversion: which path runs, and what it returns *)

Section Conversion.

Context (os : OS).
Implicit Types (w : World) (py_file output_dir : Path).

(** The manual transform: it reads the source, writes the target and
    returns it, or prints the error and returns nothing. *)
Lemma manual_jupytext_to_qmd_eq py_file output_dir w :
  manual_jupytext_to_qmd os py_file output_dir w =
  let target := qmd_target py_file output_dir in
  let failed e :=
    (Ret None,
     {| disk := disk w;
        console := console w ++ [lit "  Error converting " ++ name_of py_file
                                 ++ lit ": " ++ str_exn os e];
        launched := launched w |}) in
  match read_text (disk w) py_file with
  | inl e => failed e
  | inr content =>
      match write_node target (manual_qmd_text (stem py_file) content) (disk w) with
      | inl e => failed e
      | inr d =>
          (Ret (Some target),
           {| disk := d;
              console := console w ++ [lit "  Converted (manual): "
                                       ++ name_of py_file ++ lit " -> "
                                       ++ name_of target];
              launched := launched w |})
      end
  end.
Proof.
  unfold manual_jupytext_to_qmd, try_except, mbind, M_bind, path_read_text,
    path_write_text, lift_exn.
  destruct (read_text (disk w) py_file) as [e|content]; [done|].
  cbn zeta. destruct (write_node _ _ _) as [e|d]; done.
Qed.

(** The converter ran to completion: its exit code and the presence of the
    target decide the result; the script writes nothing itself. *)
Lemma convert_completed py_file output_dir w rc so se d :
  os_run os w (jupytext_argv py_file (qmd_target py_file output_dir)) None
  = Completed rc so se d ->
  convert_jupytext_to_qmd os py_file output_dir w =
  let target := qmd_target py_file output_dir in
  let argv := jupytext_argv py_file target in
  if (rc =? 0)%Z && exists_ d target then
    (Ret (Some target),
     {| disk := d;
        console := console w ++ [lit "  Converted: " ++ name_of py_file
                                 ++ lit " -> " ++ name_of target];
        launched := launched w ++ [(argv, None)] |})
  else
    (Ret None,
     {| disk := d;
        console := (console w
                    ++ [lit "  Warning: jupytext conversion failed for "
                        ++ name_of py_file])
                   ++ [lit "    " ++ se];
        launched := launched w ++ [(argv, None)] |}).
Proof.
  intros Hrun.
  unfold convert_jupytext_to_qmd, try_except, mbind, M_bind, subprocess_run,
    path_exists.
  cbn zeta. rewrite Hrun. cbn [disk console launched].
  by destruct ((rc =? 0)%Z && exists_ d _).
Qed.

(** The converter executable is not found: the manual transform runs. *)
Lemma convert_not_found py_file output_dir w :
  os_run os w (jupytext_argv py_file (qmd_target py_file output_dir)) None
  = NotFound ->
  convert_jupytext_to_qmd os py_file output_dir w =
  manual_jupytext_to_qmd os py_file output_dir
    (logged w (jupytext_argv py_file (qmd_target py_file output_dir)) None).
Proof.
  intros Hrun.
  unfold convert_jupytext_to_qmd, try_except, mbind, M_bind, subprocess_run.
  cbn zeta. by rewrite Hrun.
Qed.

(** The launch fails otherwise: the exception is not handled. *)
Lemma convert_launch_error py_file output_dir w :
  os_run os w (jupytext_argv py_file (qmd_target py_file output_dir)) None
  = LaunchError ->
  convert_jupytext_to_qmd os py_file output_dir w =
  (Raise PermissionError,
   logged w (jupytext_argv py_file (qmd_target py_file output_dir)) None).
Proof.
  intros Hrun.
  unfold convert_jupytext_to_qmd, try_except, mbind, M_bind, subprocess_run.
  cbn zeta. by rewrite Hrun.
Qed.

End Conversion.

(** C3.  When the converter subprocess runs to completion, the conversion
    returns a result without raising; the result is the path
    [<stem>.qmd] in the output directory exactly when the exit code is
    zero and that file exists afterwards, and it is "no result" in every
    other case; the converter is launched once (no retry) and the script
    itself leaves the filesystem as the converter left it.  On "no
    result" the caller keeps the file entry as it is: neither its path
    nor its kind changes. *)
Theorem external_conversion_result (os : OS) (w : World)
    (py_file output_dir : Path) (rc : Z) (so se : text) (d : node) :
  os_run os w (jupytext_argv py_file (qmd_target py_file output_dir)) None
  = Completed rc so se d ->
  let output_file := child output_dir (stem py_file ++ lit ".qmd") in
  exists r w',
    convert_jupytext_to_qmd os py_file output_dir w = (Ret r, w') /\
    (r = Some output_file <-> rc = 0%Z /\ exists_ d output_file = true) /\
    (r = None <-> ~ (rc = 0%Z /\ exists_ d output_file = true)) /\
    launched w' = launched w ++ [(jupytext_argv py_file output_file, None)] /\
    disk w' = d /\
    (forall f, type f = jupytext -> path f = py_file ->
               parent py_file = output_dir -> r = None ->
               convert_file os f w = (Ret f, w')).
Proof.
  intros Hrun output_file.
  pose proof (convert_completed os _ _ _ _ _ _ _ Hrun) as Hc. cbn zeta in Hc.
  fold output_file in Hc |- *.
  destruct ((rc =? 0)%Z && exists_ d (qmd_target py_file output_dir)) eqn:E.
  - eexists _, _. split; [exact Hc|].
    apply andb_true_iff in E as [E1%Z.eqb_eq E2].
    split; [done|]. split; [|split; [done|split; [done|by intros]]].
    split; [done|]. intros Hno. by destruct Hno.
  - eexists _, _. split; [exact Hc|].
    assert (~ (rc = 0%Z /\ exists_ d output_file = true)) as Hno.
    { intros [-> Hex]. unfold qmd_target in E. subst output_file.
      by rewrite Hex in E. }
    split; [split; [done|by intros ?%Hno]|].
    split; [done|]. split; [done|]. split; [done|].
    intros f Hty <- <- _. unfold convert_file.
      rewrite bool_decide_eq_true_2 by done.
      erewrite bind_Ret by exact Hc. done.
Qed.

(** C7.  The manual transform runs exactly when the converter executable
    cannot be located: a line that only the manual transform prints
    appears among the lines of a conversion if and only if the launch of
    the converter found no executable.  When the converter is found and
    runs, whatever its exit code, the conversion is a result (the target
    or nothing), the filesystem is the one the converter left and no
    manual transform writes to it; when the launch fails otherwise, the
    exception propagates. *)
Theorem manual_fallback_only_when_not_found (os : OS) (w : World)
    (py_file output_dir : Path) :
  let launch :=
    os_run os w (jupytext_argv py_file (qmd_target py_file output_dir)) None in
  let '(r, w') := convert_jupytext_to_qmd os py_file output_dir w in
  ((exists l, l ∈ new_lines w w' /\ manual_marker l = true) <-> launch = NotFound) /\
  (forall rc so se d, launch = Completed rc so se d ->
     disk w' = d /\
     (r = Ret None \/ r = Ret (Some (qmd_target py_file output_dir)))) /\
  (launch = LaunchError -> r = Raise PermissionError /\ disk w' = disk w).
Proof.
  intros launch. unfold new_lines.
  destruct launch as [| |rc so se d] eqn:Hrun; subst launch.
  - rewrite (convert_not_found _ _ _ _ Hrun), manual_jupytext_to_qmd_eq.
    cbn zeta. cbn [logged disk console launched].
    assert (forall r d l ls,
              manual_marker l = true ->
              let '(r', w') := (r : result (option Path),
                                {| disk := d; console := console w ++ [l];
                                   launched := ls |}) in
              ((exists l', l' ∈ drop (length (console w)) (console w') /\
                           manual_marker l' = true) <-> NotFound = NotFound) /\
              (forall rc so se d', NotFound = Completed rc so se d' ->
                 disk w' = d' /\ (r' = Ret None \/
                   r' = Ret (Some (qmd_target py_file output_dir)))) /\
              (NotFound = LaunchError -> r' = Raise PermissionError /\
                 disk w' = disk w)) as Hcase.
    { intros r d l ls Hl. cbn [console]. rewrite drop_app_length.
      split; [split; [done|]|done]. intros _. exists l. split; [by left|done]. }
    destruct (read_text (disk w) py_file) as [e|content].
    { apply Hcase. unfold manual_marker.
      by rewrite (startswith_app (lit "  Error converting ")), orb_true_r. }
    destruct (write_node _ _ _) as [e|d'].
    { apply Hcase. unfold manual_marker.
      by rewrite (startswith_app (lit "  Error converting ")), orb_true_r. }
    apply Hcase. unfold manual_marker.
    by rewrite (startswith_app (lit "  Converted (manual): ")).
  - rewrite (convert_launch_error _ _ _ _ Hrun). cbn [logged console disk].
    rewrite drop_all. split; [split; [|done]|done].
    intros (l & Hl & _). by apply elem_of_nil in Hl.
  - rewrite (convert_completed _ _ _ _ _ _ _ _ Hrun). cbn zeta.
    destruct ((rc =? 0)%Z && exists_ d _); cbn [console disk];
      rewrite <- ?app_assoc, drop_app_length.
    + split; [split; [|done]|split; [|done]].
      * intros (l & ->%list_elem_of_singleton & Hl). done.
      * intros ? ? ? ? [= _ _ _ <-]. split; [done|by right].
    + split; [split; [|done]|split; [|done]].
      * intros (l & Hl & Hm). exfalso.
        apply elem_of_cons in Hl as [-> | ->%list_elem_of_singleton]; done.
      * intros ? ? ? ? [= _ _ _ <-]. split; [done|by left].
Qed.

(** ** Writing files *)

Lemma write_node_cons (c c' : text) (p : Path) (data : text) (es : gmap text node) :
  write_node (c :: c' :: p) data (Dir es) =
  match es !! c with
  | Some n0 =>
      match write_node (c' :: p) data n0 with
      | inr n'' => inr (Dir (<[c:=n'']> es))
      | inl e => inl e
      end
  | None => inl FileNotFoundError
  end.
Proof. done. Qed.

Lemma write_node_lookup (p : Path) (data : text) (n n' : node) :
  write_node p data n = inr n' ->
  lookup_path p n' = Some (File (Some data)).
Proof.
  revert n n'. induction p as [|c p IH]; intros [o|es] n'; try done.
  destruct p as [|c' p].
  - cbn [write_node]. intros Hw.
    assert (n' = Dir (<[c:=File (Some data)]> es)) as ->.
    { destruct (es !! c) as [[|]|]; congruence. }
    simpl. by rewrite lookup_insert_eq.
  - rewrite write_node_cons.
    destruct (es !! c) as [n0|] eqn:Hc; [|done].
    destruct (write_node (c' :: p) data n0) as [e|n''] eqn:Hw; [done|].
    intros [= <-]. cbn [lookup_path]. rewrite lookup_insert_eq. by apply (IH n0).
Qed.

(** Writing a file leaves the other entries of its directory as they are. *)
Lemma write_node_sibling (r : Path) (a b : text) (data : text) (n n' : node) :
  write_node (child r a) data n = inr n' -> a <> b ->
  lookup_path (child r b) n' = lookup_path (child r b) n.
Proof.
  unfold child. revert n n'. induction r as [|c r IH]; intros [o|es] n'; try done.
  - cbn [app write_node]. intros Hw Hne.
    assert (n' = Dir (<[a:=File (Some data)]> es)) as ->.
    { destruct (es !! a) as [[|]|]; congruence. }
    simpl. by rewrite lookup_insert_ne.
  - cbn [app]. destruct (r ++ [a]) as [|c' p] eqn:E.
    { by destruct r. }
    rewrite write_node_cons.
    destruct (es !! c) as [n0|] eqn:Hc; [|done].
    destruct (write_node (c' :: p) data n0) as [e|n''] eqn:Hw; [done|].
    intros [= <-] Hne. cbn [lookup_path]. rewrite lookup_insert_eq, Hc.
    by apply (IH n0).
Qed.

Lemma path_write_text_Ret (p : Path) (data : text) (w w' : World) (u : unit) :
  path_write_text p data w = (Ret u, w') ->
  write_node p data (disk w) = inr (disk w') /\
  console w' = console w /\ launched w' = launched w.
Proof.
  unfold path_write_text. destruct (write_node p data (disk w)); [done|].
  by intros [= _ <-].
Qed.

Lemma print_eq (s : text) (w : World) :
  print s w = (Ret tt, {| disk := disk w; console := console w ++ [s];
                          launched := launched w |}).
Proof. done. Qed.

(** ** The render step *)

Section Render.

Context (os : OS).

(** The three ends of [run_quarto_render]: the executable is missing, the
    renderer fails, the renderer succeeds. *)
Lemma run_quarto_render_not_found (root : Path) (w : World) :
  os_run os (snd (print (nl ++ lit "Running Quarto render...") w))
    [lit "quarto"; lit "render"] (Some root) = NotFound ->
  exists w', run_quarto_render os root w = (Ret false, w') /\
             disk w' = disk w.
Proof.
  intros Hrun. unfold run_quarto_render, try_except, mbind, M_bind, subprocess_run.
  rewrite print_eq in *. cbn [snd] in Hrun. cbn zeta. rewrite Hrun.
  eexists. split; [reflexivity|done].
Qed.

Lemma run_quarto_render_failed (root : Path) (w : World) rc so se d :
  os_run os (snd (print (nl ++ lit "Running Quarto render...") w))
    [lit "quarto"; lit "render"] (Some root) = Completed rc so se d ->
  rc <> 0%Z ->
  exists w', run_quarto_render os root w = (Ret false, w') /\ disk w' = d.
Proof.
  intros Hrun Hrc. unfold run_quarto_render, try_except, mbind, M_bind, subprocess_run.
  rewrite print_eq in *. cbn [snd] in Hrun. cbn zeta. rewrite Hrun.
  apply Z.eqb_neq in Hrc. rewrite Hrc.
  destruct so, se; eexists; (split; [reflexivity|done]).
Qed.

Lemma run_quarto_render_succeeded (root : Path) (w : World) so se d :
  os_run os (snd (print (nl ++ lit "Running Quarto render...") w))
    [lit "quarto"; lit "render"] (Some root) = Completed 0 so se d ->
  exists w', run_quarto_render os root w = (Ret true, w') /\ disk w' = d.
Proof.
  intros Hrun. unfold run_quarto_render, try_except, mbind, M_bind, subprocess_run.
  rewrite print_eq in *. cbn [snd] in Hrun. cbn zeta. rewrite Hrun.
  destruct so; eexists; (split; [reflexivity|done]).
Qed.

End Render.

(** ** Orchestration *)

Lemma print_Ret (s : text) (w w' : World) (u : unit) :
  print s w = (Ret u, w') -> disk w' = disk w.
Proof. by intros [= _ <-]. Qed.

Lemma lift_exn_Ret {A} (r : exn + A) (w w' : World) (a : A) :
  lift_exn r w = (Ret a, w') -> r = inr a /\ w' = w.
Proof. destruct r; [done|]. by intros [= -> ->]. Qed.

Lemma read_text_written (p : Path) (data : text) (n n' : node) :
  write_node p data n = inr n' -> read_text n' p = inr data.
Proof. intros Hw. unfold read_text. by rewrite (write_node_lookup _ _ _ _ Hw). Qed.

Tactic Notation "inv_bind" hyp(H) "as" ident(a) ident(w) ident(Ha) :=
  apply bind_Ret_inv in H as (a & w & Ha & H).

(** When the steps before the render step complete, the two generated
    files are on the disk with the generated texts. *)
Lemma build_site_generate_Ret (os : OS) (script_dir cwd : Path)
    (w w1 : World) (root : Path) :
  build_site_generate os script_dir cwd w = (Ret root, w1) ->
  root = get_root_dir script_dir cwd /\
  exists teams quarto_yml index_qmd d0,
    generate_quarto_yml root teams = inr quarto_yml /\
    create_index_qmd d0 root teams = inr index_qmd /\
    read_text (disk w1) (quarto_yml_path root) = inr quarto_yml /\
    read_text (disk w1) (index_qmd_path root) = inr index_qmd.
Proof.
  unfold build_site_generate. cbn zeta. intros H.
  inv_bind H as u1 wa H1. inv_bind H as u2 wb H2. inv_bind H as u3 wc H3.
  inv_bind H as teams0 wd H4. inv_bind H as u5 we H5. inv_bind H as u6 wf H6.
  inv_bind H as teams wg H7. inv_bind H as u8 wh H8.
  inv_bind H as quarto_yml wi H9. apply lift_exn_Ret in H9 as [Hyml ->].
  inv_bind H as u10 wj H10. apply path_write_text_Ret in H10 as (Hw1 & _ & _).
  inv_bind H as u11 wk H11. apply print_Ret in H11.
  inv_bind H as u12 wl H12. apply print_Ret in H12.
  inv_bind H as index_qmd wm H13. apply lift_exn_Ret in H13 as [Hidx ->].
  inv_bind H as u14 wn H14. apply path_write_text_Ret in H14 as (Hw2 & _ & _).
  inv_bind H as u15 wo H15. apply print_Ret in H15.
  injection H as <- <-. split; [done|].
  exists teams, quarto_yml, index_qmd, (disk wl).
  split; [done|]. split; [done|].
  rewrite H15. split; [|by apply (read_text_written _ _ _ _ Hw2)].
  unfold read_text, quarto_yml_path, index_qmd_path in *.
  rewrite (write_node_sibling _ _ _ _ _ _ Hw2) by done.
  rewrite H12, H11. by rewrite (write_node_lookup _ _ _ _ Hw1).
Qed.

(** C4.  Suppose the steps before the render step complete.  Then the
    configuration file and the landing-page file are on the disk, with the
    generated texts, in the world in which the renderer is launched.  If
    the renderer executable is absent, or the renderer exits with a
    nonzero code, the run prints the final failure message and the process
    ends with exit status 1; if the renderer exits with code zero, the run
    returns normally and its final message names the output location. *)
Theorem render_failure_exits_1 (os : OS) (script_dir cwd : Path)
    (w w1 : World) (root : Path) :
  build_site_generate os script_dir cwd w = (Ret root, w1) ->
  let w_launch := snd (print (nl ++ lit "Running Quarto render...") w1) in
  let launch := os_run os w_launch [lit "quarto"; lit "render"] (Some root) in
  (exists teams quarto_yml index_qmd d0,
     generate_quarto_yml root teams = inr quarto_yml /\
     create_index_qmd d0 root teams = inr index_qmd /\
     read_text (disk w_launch) (quarto_yml_path root) = inr quarto_yml /\
     read_text (disk w_launch) (index_qmd_path root) = inr index_qmd) /\
  (launch = NotFound \/
   (exists rc so se d, launch = Completed rc so se d /\ rc <> 0%Z) ->
   exists w2,
     build_site os script_dir cwd w = (Exit 1, w2) /\
     exit_status (fst (build_site os script_dir cwd w)) = 1%Z /\
     last (console w2) = Some (nl ++ lit "Build failed!")) /\
  (forall so se d, launch = Completed 0 so se d ->
   exists w2,
     build_site os script_dir cwd w = (Ret tt, w2) /\
     exit_status (fst (build_site os script_dir cwd w)) = 0%Z /\
     last (console w2)
     = Some (nl ++ lit "Build complete! Output in: "
             ++ path_str (child root (lit "docs")))).
Proof.
  intros Hgen w_launch launch. split; [|split].
  - by apply build_site_generate_Ret in Hgen as [_ ?].
  - intros Hfail.
    assert (exists w', run_quarto_render os root w1 = (Ret false, w')) as [w' Hr].
    { destruct Hfail as [Hnf|(rc & so & se & d & Hc & Hrc)].
      - destruct (run_quarto_render_not_found os root w1 Hnf) as (w' & ? & _); eauto.
      - destruct (run_quarto_render_failed os root w1 _ _ _ _ Hc Hrc)
          as (w' & ? & _); eauto. }
    unfold build_site. rewrite (bind_Ret _ _ _ _ _ Hgen).
    unfold build_site_render. rewrite (bind_Ret _ _ _ _ _ Hr).
    eexists. split; [reflexivity|]. split; [done|]. apply last_snoc.
  - intros so se d Hc.
    destruct (run_quarto_render_succeeded os root w1 _ _ _ Hc) as (w' & Hr & _).
    unfold build_site. rewrite (bind_Ret _ _ _ _ _ Hgen).
    unfold build_site_render. rewrite (bind_Ret _ _ _ _ _ Hr).
    eexists. split; [reflexivity|]. split; [done|]. apply last_snoc.
Qed.

(** ** The manual transform *)

Lemma join_cons (sep l : text) (ls : list text) :
  ls <> [] -> join sep (l :: ls) = l ++ sep ++ join sep ls.
Proof. by destruct ls. Qed.

Lemma join_app (sep : text) (l1 l2 : list text) :
  l1 <> [] -> l2 <> [] ->
  join sep (l1 ++ l2) = join sep l1 ++ sep ++ join sep l2.
Proof.
  intros H1 H2. induction l1 as [|a l1 IH]; [done|].
  destruct l1 as [|b l1].
  - simpl. by destruct l2.
  - change ((a :: b :: l1) ++ l2) with (a :: ((b :: l1) ++ l2)).
    rewrite !join_cons by done. rewrite IH by done. by rewrite <- !app_assoc.
Qed.

(** Without a marker line the first loop collects nothing; inside the
    metadata block it collects every line up to the next marker line. *)
Lemma extract_yaml_no_marker (lines : list text) (inside : bool) (acc : list text) :
  Forall (fun l => is_marker_line l = false) lines ->
  extract_yaml lines inside acc =
  if inside then acc ++ (yaml_line_of <$> lines) else acc.
Proof.
  intros Hl. revert acc. induction Hl as [|l lines Hm _ IH]; intros acc.
  - destruct inside; [by rewrite app_nil_r|done].
  - cbn [extract_yaml]. rewrite Hm. cbn [andb]. destruct inside.
    + rewrite IH. cbn [fmap list_fmap]. by rewrite <- app_assoc.
    + by rewrite IH.
Qed.

Lemma extract_yaml_one_marker (pre post : list text) (m : text) :
  Forall (fun l => is_marker_line l = false) pre ->
  Forall (fun l => is_marker_line l = false) post ->
  is_marker_line m = true ->
  extract_yaml (pre ++ m :: post) false [] = yaml_line_of <$> post.
Proof.
  intros Hpre Hpost Hm. induction Hpre as [|l pre Hl _ IH].
  - cbn [app extract_yaml]. rewrite Hm. cbn [andb negb].
    by rewrite extract_yaml_no_marker.
  - cbn [app extract_yaml]. by rewrite Hl.
Qed.

(** While fewer than two marker lines have been seen, the second loop
    skips every line. *)
Lemma body_skips (lines : list text) (st : scan) :
  skip_header st = true ->
  (header_end_count st
   + Z.of_nat (length (filter (fun l => is_marker_line l = true) lines)) < 2)%Z ->
  let st' := foldl body_step st lines in
  qmd_lines st' = qmd_lines st /\ in_code_block st' = in_code_block st.
Proof.
  revert st. induction lines as [|l lines IH]; intros st Hskip Hc; [done|].
  cbn [foldl]. rewrite filter_cons in Hc.
  destruct (is_marker_line l) eqn:Hm.
  - rewrite decide_True in Hc by done. cbn [length] in Hc.
    assert (body_step st l =
            {| qmd_lines := qmd_lines st;
               in_code_block := in_code_block st;
               skip_header := true;
               header_end_count := (header_end_count st + 1)%Z |}) as ->.
    { unfold body_step. rewrite Hskip, Hm. cbn zeta.
      destruct (Z.leb_spec 2 (header_end_count st + 1)); [lia|done]. }
    apply (IH (mkScan _ _ _ _)); [done|]. cbn [header_end_count]. lia.
  - rewrite decide_False in Hc by congruence.
    assert (body_step st l = st) as -> by (unfold body_step; by rewrite Hskip, Hm).
    by apply IH.
Qed.

(** A list with at most one element that satisfies [P]. *)
Lemma filter_length_lt_2 {A} (P : A -> Prop) `{!forall x, Decision (P x)} (l : list A) :
  length (filter P l) < 2 ->
  Forall (fun x => ~ P x) l \/
  exists pre m post, l = pre ++ m :: post /\ P m /\
                     Forall (fun x => ~ P x) pre /\ Forall (fun x => ~ P x) post.
Proof.
  induction l as [|x l IH]; [by left|].
  rewrite filter_cons. destruct (decide (P x)) as [Hx|Hx]; cbn [length]; intros Hl.
  - right. exists [], x, l. split; [done|]. split; [done|]. split; [done|].
    destruct (filter P l) eqn:E; [|simpl in Hl; lia].
    apply Forall_forall. intros y Hy Py.
    assert (y ∈ filter P l) as Hf by (by apply list_elem_of_filter).
    rewrite E in Hf. by apply elem_of_nil in Hf.
  - destruct (IH Hl) as [?|(pre & m & post & -> & ? & ? & ?)].
    + left. by constructor.
    + right. exists (x :: pre), m, post. split; [done|]. split; [done|].
      split; [by constructor|done].
Qed.

(** C9.  When fewer than two lines of the source strip to the marker line
    ["# ---"], the manual transform skips every line in its second loop:
    the lines it writes are the opening ["---"], a non-empty metadata
    block, and the closing ["---"] followed by a newline, with nothing
    after it.  The metadata block is the title made up from the stem
    or, when there is one marker line with lines after it, all those lines
    without their comment prefix. *)
Theorem manual_without_second_marker (stem_ content : text) :
  marker_count content < 2 ->
  exists meta,
    meta <> [] /\
    manual_qmd_lines stem_ content = [lit "---"] ++ meta ++ [lit "---" ++ nl] /\
    manual_qmd_text stem_ content
    = lit "---" ++ nl ++ join nl meta ++ nl ++ lit "---" ++ nl /\
    (meta = [title_line stem_] \/
     exists pre m post,
       split_nl content = pre ++ m :: post /\
       is_marker_line m = true /\
       Forall (fun l => is_marker_line l = false) pre /\
       Forall (fun l => is_marker_line l = false) post /\
       meta = yaml_line_of <$> post).
Proof.
  unfold marker_count. intros Hc.
  set (lines := split_nl content) in *.
  set (yaml := extract_yaml lines false []).
  set (meta := match yaml with [] => [title_line stem_] | _ :: _ => yaml end).
  assert (meta <> []) as Hne by (unfold meta; by destruct yaml).
  assert (manual_qmd_lines stem_ content = [lit "---"] ++ meta ++ [lit "---" ++ nl])
    as Hlines.
  { unfold manual_qmd_lines. cbn zeta. fold lines. fold yaml.
    match goal with |- context [foldl body_step ?st lines] =>
      destruct (body_skips lines st) as [Hq Hb]; [done|cbn; lia|] end.
    rewrite Hb, Hq. cbn [in_code_block qmd_lines]. unfold meta, title_line.
    destruct yaml; by rewrite <- app_assoc. }
  exists meta. split; [done|]. split; [done|]. split.
  { unfold manual_qmd_text. rewrite Hlines.
    change ([lit "---"] ++ meta ++ [lit "---" ++ nl])
      with (lit "---" :: (meta ++ [lit "---" ++ nl])).
    rewrite join_cons by (by destruct meta).
    rewrite join_app by done. cbn [join]. by rewrite <- ?app_assoc. }
  assert (forall ls, Forall (fun l => ~ is_marker_line l = true) ls ->
                     Forall (fun l => is_marker_line l = false) ls) as Hconv.
  { intros ls Hls. eapply Forall_impl; [exact Hls|].
    intros l. apply not_true_is_false. }
  apply filter_length_lt_2 in Hc as [Hnone|(pre & m & post & E & Hm & Hpre & Hpost)].
  - left. unfold meta, yaml. by rewrite extract_yaml_no_marker by auto.
  - apply Hconv in Hpre, Hpost.
    assert (yaml = yaml_line_of <$> post) as Hy.
    { unfold yaml. rewrite E. by apply extract_yaml_one_marker. }
    destruct post as [|p post].
    + left. unfold meta. by rewrite Hy.
    + right. exists pre, m, (p :: post). unfold meta. by rewrite Hy.
Qed.

(** A concatenation holds each of its parts, and two of them one after
    the other. *)
Lemma concat_lookup {A} (ls : list (list A)) (i : nat) (l : list A) :
  ls !! i = Some l -> exists a c, concat ls = a ++ l ++ c.
Proof.
  intros (l1 & l2 & -> & _)%list_elem_of_split_length.
  exists (concat l1), (concat l2). by rewrite concat_app.
Qed.

Lemma concat_lookup_2 {A} (ls : list (list A)) (i j : nat) (l l' : list A) :
  i < j -> ls !! i = Some l -> ls !! j = Some l' ->
  exists a b c, concat ls = a ++ l ++ b ++ l' ++ c.
Proof.
  intros Hij (l1 & l2 & -> & Hi)%list_elem_of_split_length Hj.
  rewrite lookup_app_r in Hj by lia.
  replace (j - length l1) with (S (j - length l1 - 1)) in Hj by lia.
  cbn [lookup list_lookup] in Hj.
  apply concat_lookup in Hj as (b & c & E).
  exists (concat l1), b, c. rewrite concat_app. simpl. by rewrite E.
Qed.

(** ** Loops that accumulate and may raise *)

Section ForAcc.

Context {A S : Type}.
Variable body : list S -> A -> exn + list S.
Variable g : A -> exn + list S.
Hypothesis body_appends : forall acc x,
  body acc x = match g x with
               | inr y => inr (acc ++ y)
               | inl e => inl e
               end.

Lemma for_acc_gather (xs : list A) (acc : list S) :
  for_acc xs body acc =
  match gather g xs with
  | inr r => inr (acc ++ r)
  | inl e => inl e
  end.
Proof.
  revert acc. induction xs as [|x xs IH]; intros acc; cbn [for_acc gather].
  - by rewrite app_nil_r.
  - rewrite body_appends. destruct (g x) as [e|y]; [done|].
    rewrite IH. destruct (gather g xs); [done|]. by rewrite <- app_assoc.
Qed.

End ForAcc.

Section Gather.

Context {A S : Type} (g : A -> exn + list S).

(** The loop returns exactly when every step does, and then it has
    appended what the steps produce, in order. *)
Lemma gather_inr (xs : list A) (r : list S) :
  gather g xs = inr r <->
  exists ys, Forall2 (fun x y => g x = inr y) xs ys /\ r = concat ys.
Proof.
  revert r. induction xs as [|x xs IH]; intros r; cbn [gather].
  - split.
    + intros [= <-]. exists []. split; [constructor|done].
    + intros (ys & Hys & ->). by inv Hys.
  - destruct (g x) as [e|y] eqn:Hx.
    + split; [done|]. intros (ys & Hys & _). inv Hys. congruence.
    + destruct (gather g xs) as [e|r'] eqn:Hg.
      * split; [done|]. intros (ys & Hys & _). inv Hys.
        assert (inl e = inr (concat l')) as [=]. apply IH. eauto.
      * split.
        -- intros [= <-]. destruct (proj1 (IH r') eq_refl) as (ys & Hys & ->).
           exists (y :: ys). split; [by constructor|done].
        -- intros (ys & Hys & ->). inv Hys.
           assert (y = y0) as <- by congruence.
           assert (inr r' = inr (concat l')) as [= ->] by (apply IH; eauto).
           done.
Qed.

Lemma gather_total (h : A -> list S) (xs : list A) :
  Forall (fun x => g x = inr (h x)) xs ->
  gather g xs = inr (concat (h <$> xs)).
Proof.
  induction 1 as [|x xs Hx _ IH]; [done|]. cbn [gather]. by rewrite Hx, IH.
Qed.

Lemma gather_lookup (xs : list A) (r : list S) (i : nat) (x : A) :
  gather g xs = inr r -> xs !! i = Some x ->
  exists y a c, g x = inr y /\ r = a ++ y ++ c.
Proof.
  intros (ys & Hys & ->)%gather_inr Hx.
  destruct (Forall2_lookup_l _ _ _ _ _ Hys Hx) as (y & Hy & Hg).
  destruct (concat_lookup _ _ _ Hy) as (a & c & E). eauto 6.
Qed.

Lemma gather_lookup_2 (xs : list A) (r : list S) (i j : nat) (x x' : A) :
  gather g xs = inr r -> i < j -> xs !! i = Some x -> xs !! j = Some x' ->
  exists y y' a b c, g x = inr y /\ g x' = inr y' /\ r = a ++ y ++ b ++ y' ++ c.
Proof.
  intros (ys & Hys & ->)%gather_inr Hij Hx Hx'.
  destruct (Forall2_lookup_l _ _ _ _ _ Hys Hx) as (y & Hy & Hg).
  destruct (Forall2_lookup_l _ _ _ _ _ Hys Hx') as (y' & Hy' & Hg').
  destruct (concat_lookup_2 _ _ _ _ _ Hij Hy Hy') as (a & b & c & E).
  exists y, y', a, b, c. done.
Qed.

End Gather.

Lemma rel_path_str_below (root p : Path) :
  below root p -> rel_path_str root p = inr (rel_of root p).
Proof. unfold below, rel_path_str, rel_of. by intros [r ->]. Qed.

Lemma rel_path_str_inr (root p : Path) (r : text) :
  rel_path_str root p = inr r -> r = rel_of root p.
Proof.
  unfold rel_path_str, rel_of. destruct (relative_to p root); [|done].
  by intros [= <-].
Qed.


(** ** Configuration and landing page *)

(** The configuration: the sections of the teams, joined, between the
    fixed head and tail. *)
Lemma generate_quarto_yml_eq (root : Path) (teams : list Team) :
  generate_quarto_yml root teams =
  match gather (section_of root) teams with
  | inl e => inl e
  | inr entries =>
      inr (config_head
           ++ match entries with
              | [] => lit "        - Team_Projects/README.md"
              | _ :: _ => join nl entries
              end
           ++ nl ++ config_tail)
  end.
Proof.
  unfold generate_quarto_yml, mbind, exn_bind, mret, exn_ret.
  rewrite (for_acc_gather _ (section_of root)).
  - by destruct (gather (section_of root) teams) as [|[|]].
  - intros acc t. rewrite (for_acc_gather _ (nav_of root)).
    + unfold section_of.
      destruct (gather (nav_of root) (files t)) as [|[|]]; simpl;
        by rewrite ?app_nil_r.
    + intros acc' f. unfold nav_of. by destruct (rel_path_str root (path f)).
Qed.

(** The landing page: a title and a body, which come from the legacy
    HTML file when there is one, and the team links. *)
Lemma create_index_qmd_eq (fs : node) (root : Path) (teams : list Team) :
  exists front : exn + text * text,
    create_index_qmd fs root teams =
    match front with
    | inl e => inl e
    | inr (title, body_content) =>
        match team_links_of root teams with
        | inl e => inl e
        | inr team_links => inr (page title body_content team_links)
        end
    end /\
    (exists_ fs (child root (lit "index.html")) = false ->
     front = inr (lit "Data Dive 2025", [])).
Proof.
  unfold create_index_qmd, mbind, exn_bind, mret, exn_ret. cbn zeta.
  assert (forall acc : text,
            for_acc teams
              (fun team_links team =>
                 match for_acc (files team)
                         (fun team_links0 f =>
                            match rel_path_str root (path f) with
                            | inr a => inr (team_links0 ++ link_line (name f) a)
                            | inl e => inl e
                            end)
                         (team_links ++ lit "### " ++ team_name team ++ nl ++ nl) with
                 | inr a => inr (a ++ nl)
                 | inl e => inl e
                 end) acc
            = match gather (block_of root) teams with
              | inr r => inr (acc ++ r)
              | inl e => inl e
              end) as Hloop.
  { intros acc. apply for_acc_gather. intros acc' t.
    rewrite (for_acc_gather _ (links_of root)).
    - unfold block_of. destruct (gather (links_of root) (files t)); [done|].
      by rewrite <- ?app_assoc.
    - intros acc'' f. unfold links_of. by destruct (rel_path_str root (path f)). }
  set (front := if exists_ fs (child root (lit "index.html")) then _ else _).
  exists front. split; [|unfold front; by intros ->].
  destruct front as [e|[title body_content]]; [done|].
  unfold team_links_of, page. destruct teams as [|t teams']; [done|].
  rewrite Hloop. destruct (gather (block_of root) (t :: teams')); [done|].
  by rewrite <- ?app_assoc.
Qed.

Lemma links_of_below (root : Path) (f : Doc) :
  below root (path f) -> links_of root f = inr (link_of root f).
Proof. intros Hb. unfold links_of. by rewrite rel_path_str_below. Qed.

Lemma block_of_below (root : Path) (t : Team) :
  Forall (fun f => below root (path f)) (files t) ->
  block_of root t = inr (team_block root t).
Proof.
  intros Hb. unfold block_of, team_block.
  rewrite (gather_total _ (link_of root)); [done|].
  eapply Forall_impl; [exact Hb|]. apply links_of_below.
Qed.

(** C6, as amended.  When there is no legacy HTML file at the root and
    the documents lie below the root, the landing page is the metadata
    block with the fixed default title, an empty body, and the team
    links: nothing when there is no team, and otherwise the "Team
    Projects" section, with one heading per team followed by one link per
    document, made of its display name and its root-relative path.  The
    default description is not part of the page. *)
Theorem landing_page_default (fs : node) (root : Path) (teams : list Team) :
  exists_ fs (child root (lit "index.html")) = false ->
  Forall (fun t => Forall (fun f => below root (path f)) (files t)) teams ->
  let body_content : text := [] in
  create_index_qmd fs root teams =
  inr (default_front_matter ++ nl ++ body_content ++ nl ++ nl
       ++ team_section root teams ++ nl).
Proof.
  intros Habs Hb body_content.
  destruct (create_index_qmd_eq fs root teams) as (front & -> & Hfront).
  rewrite (Hfront Habs). unfold team_links_of, team_section.
  destruct teams as [|t teams']; [by unfold page, default_front_matter; rewrite <- ?app_assoc|].
  rewrite (gather_total _ (team_block root)).
  - unfold page, default_front_matter. by rewrite <- ?app_assoc.
  - eapply Forall_impl; [exact Hb|]. apply block_of_below.
Qed.

(** ** Stems *)

Lemma rfind_char_from_app (c : char) (a b : text) (i last : Z) :
  rfind_char_from c (a ++ b) i last =
  rfind_char_from c b (i + Z.of_nat (length a)) (rfind_char_from c a i last).
Proof.
  revert i last. induction a as [|d a IH]; intros i last; simpl.
  - f_equal. lia.
  - rewrite IH. f_equal. lia.
Qed.

Lemma rfind_char_from_absent (c : char) (s : text) (i last : Z) :
  c ∉ s -> rfind_char_from c s i last = last.
Proof.
  revert i last. induction s as [|d s IH]; intros i last Hc; [done|].
  apply not_elem_of_cons in Hc as [Hne Hc]. simpl.
  rewrite IH by done. by apply N.eqb_neq in Hne as ->.
Qed.

(** The stem of [X.ext], for a non-empty [X] and a non-empty extension
    without a dot, is [X]. *)
Lemma stem_of_name_ext (X e : text) :
  X <> [] -> e <> [] -> dot ∉ e -> stem_of_name (X ++ dot :: e) = X.
Proof.
  intros HX He Hdot. unfold stem_of_name, rfind_char.
  rewrite rfind_char_from_app. cbn [rfind_char_from]. rewrite N.eqb_refl.
  rewrite rfind_char_from_absent by done. cbn zeta.
  rewrite length_app. cbn [length].
  assert (0 < length X) by (destruct X; [done|simpl; lia]).
  assert (0 < length e) by (destruct e; [done|simpl; lia]).
  replace ((0 <? 0 + Z.of_nat (length X))%Z) with true
    by (symmetry; apply Z.ltb_lt; lia).
  replace ((0 + Z.of_nat (length X) <? Z.of_nat (length X + S (length e)) - 1)%Z)
    with true by (symmetry; apply Z.ltb_lt; lia).
  cbn [andb]. unfold slice. rewrite Z.sub_0_r, Z.add_0_l, Nat2Z.id.
  change (Z.to_nat 0) with 0. rewrite drop_0. by rewrite take_app_length.
Qed.

Lemma stem_of_py (X : text) : X <> [] -> stem_of_name (X ++ lit ".py") = X.
Proof.
  intros HX. apply (stem_of_name_ext X (lit "py")); [done|done|].
  vm_compute. intros H. repeat (apply elem_of_cons in H as [H|H]; [done|]).
  by apply elem_of_nil in H.
Qed.

Lemma stem_of_qmd (X : text) : X <> [] -> stem_of_name (X ++ lit ".qmd") = X.
Proof.
  intros HX. apply (stem_of_name_ext X (lit "qmd")); [done|done|].
  vm_compute. intros H. repeat (apply elem_of_cons in H as [H|H]; [done|]).
  by apply elem_of_nil in H.
Qed.

(** ** The conversion step of the build *)

Section ConversionStep.

Context (os : OS).

(** A conversion that returns a path returns the target, and the target
    exists afterwards. *)
Lemma convert_Some (py_file output_dir : Path) (w w' : World) (q : Path) :
  convert_jupytext_to_qmd os py_file output_dir w = (Ret (Some q), w') ->
  q = qmd_target py_file output_dir /\ exists_ (disk w') q = true.
Proof.
  destruct (os_run os w (jupytext_argv py_file (qmd_target py_file output_dir)) None)
    as [| |rc so se d] eqn:Hrun.
  - rewrite (convert_not_found _ _ _ _ Hrun), manual_jupytext_to_qmd_eq.
    cbn zeta. cbn [logged disk].
    destruct (read_text (disk w) py_file) as [e|content]; [done|].
    destruct (write_node _ _ _) as [e|d'] eqn:Hw; [done|].
    intros [= <- <-]. split; [done|]. unfold exists_. cbn [disk].
    by rewrite (write_node_lookup _ _ _ _ Hw).
  - by rewrite (convert_launch_error _ _ _ _ Hrun).
  - rewrite (convert_completed _ _ _ _ _ _ _ _ Hrun). cbn zeta.
    destruct ((rc =? 0)%Z && exists_ d _) eqn:E; [|done].
    intros [= <- <-]. by apply andb_true_iff in E as [_ ?].
Qed.

Lemma convert_file_Ret (f f' : Doc) (w w' : World) :
  convert_file os f w = (Ret f', w') ->
  f' = f \/
  (type f = jupytext /\
   f' = {| path := qmd_target (path f) (parent (path f)); type := quarto;
           name := name f |}).
Proof.
  unfold convert_file. case_bool_decide as Hty.
  - intros H. inv_bind H as q w1 Hc. destruct q as [q|].
    + apply convert_Some in Hc as [-> _]. injection H as <- <-. by right.
    + injection H as <- <-. by left.
  - intros [= <- <-]. by left.
Qed.

Lemma convert_files_Ret (fl fl' : list Doc) (w w' : World) :
  convert_files os fl w = (Ret fl', w') ->
  Forall2 (fun f f' =>
             f' = f \/
             (type f = jupytext /\
              f' = {| path := qmd_target (path f) (parent (path f));
                      type := quarto; name := name f |})) fl fl'.
Proof.
  revert fl' w. induction fl as [|f fl IH]; intros fl' w; cbn [convert_files].
  - intros [= <- <-]. constructor.
  - intros H. inv_bind H as f' w1 Hf. inv_bind H as rest w2 Hr.
    injection H as <- <-. constructor; eauto using convert_file_Ret.
Qed.

(** The loop over a list in two parts: the second part starts in the
    world that the first part leaves. *)
Lemma convert_files_app (pre post fl' : list Doc) (w w' : World) :
  convert_files os (pre ++ post) w = (Ret fl', w') ->
  exists pre' post' w1,
    convert_files os pre w = (Ret pre', w1) /\
    convert_files os post w1 = (Ret post', w') /\
    fl' = pre' ++ post' /\ length pre' = length pre.
Proof.
  revert fl' w. induction pre as [|f pre IH]; intros fl' w H.
  - by exists [], fl', w.
  - cbn [app convert_files] in H.
    inv_bind H as f' w1 Hf. inv_bind H as rest w2 Hr. injection H as <- <-.
    destruct (IH _ _ Hr) as (pre' & post' & w3 & Hpre & Hpost & -> & Hlen).
    exists (f' :: pre'), post', w3. cbn [convert_files].
    unfold mbind, M_bind. rewrite Hf, Hpre. cbn [length]. by rewrite Hlen.
Qed.

End ConversionStep.

(** ** Texts that hold a line twice *)

Lemma join_middle (sep : text) (l1 l2 : list text) (x : text) :
  join sep (l1 ++ x :: l2) =
  match l1 with [] => [] | _ :: _ => join sep l1 ++ sep end
  ++ x ++ match l2 with [] => [] | _ :: _ => sep ++ join sep l2 end.
Proof.
  assert (join sep (x :: l2)
          = x ++ match l2 with [] => [] | _ :: _ => sep ++ join sep l2 end) as Hx.
  { destruct l2; [by rewrite app_nil_r|done]. }
  destruct l1 as [|a l1]; [done|].
  rewrite join_app by done. rewrite Hx. by rewrite <- !app_assoc.
Qed.

Lemma twice_app_l (l a t : text) : twice l t -> twice l (a ++ t).
Proof.
  intros (x & y & z & ->). exists (a ++ x), y, z. by rewrite <- app_assoc.
Qed.

Lemma twice_app_r (l t c : text) : twice l t -> twice l (t ++ c).
Proof.
  intros (x & y & z & ->). exists x, y, (z ++ c). by rewrite <- !app_assoc.
Qed.

Lemma join_elem (sep : text) (ls : list text) (i : nat) (l : text) :
  ls !! i = Some l -> exists a c, join sep ls = a ++ l ++ c.
Proof.
  intros (l1 & l2 & -> & _)%list_elem_of_split_length.
  rewrite join_middle. eauto.
Qed.

Lemma join_twice (sep : text) (ls : list text) (i j : nat) (l : text) :
  i < j -> ls !! i = Some l -> ls !! j = Some l -> twice l (join sep ls).
Proof.
  intros Hij (l1 & l2 & -> & Hi)%list_elem_of_split_length Hj.
  rewrite lookup_app_r in Hj by lia.
  replace (j - length l1) with (S (j - length l1 - 1)) in Hj by lia.
  cbn [lookup list_lookup] in Hj.
  destruct l2 as [|b l2]; [done|].
  destruct (join_elem sep (b :: l2) _ _ Hj) as (x & y & E).
  rewrite join_middle, E. apply twice_app_l.
  exists [], (sep ++ x), y. by rewrite <- !app_assoc.
Qed.

Lemma concat_twice (ls : list text) (i j : nat) (l : text) :
  i < j -> ls !! i = Some l -> ls !! j = Some l -> twice l (concat ls).
Proof.
  intros Hij Hi Hj.
  destruct (concat_lookup_2 _ _ _ _ _ Hij Hi Hj) as (a & b & c & E).
  by exists a, b, c.
Qed.

Lemma inr_eq {A B} (x y : B) : @inr A B x = inr y -> x = y.
Proof. by intros [=]. Qed.

Lemma nav_of_inr (root : Path) (f : Doc) (y : list text) :
  nav_of root f = inr y -> y = [nav_line (rel_of root (path f))].
Proof.
  unfold nav_of. destruct (rel_path_str root (path f)) eqn:E; [done|].
  apply rel_path_str_inr in E as ->. by intros [= <-].
Qed.

Lemma links_of_inr (root : Path) (f : Doc) (y : text) :
  links_of root f = inr y -> y = link_line (name f) (rel_of root (path f)).
Proof.
  unfold links_of. destruct (rel_path_str root (path f)) eqn:E; [done|].
  apply rel_path_str_inr in E as ->. by intros [= <-].
Qed.

(** Two file entries of one team with the same path: the configuration
    holds the navigation line of that path twice. *)
Lemma yml_lists_twice (root : Path) (teams : list Team) (yml : text)
    (k i j : nat) (T : Team) (d1 d2 : Doc) :
  generate_quarto_yml root teams = inr yml ->
  teams !! k = Some T ->
  files T !! i = Some d1 -> files T !! j = Some d2 -> i < j ->
  path d1 = path d2 ->
  twice (nav_line (rel_of root (path d1))) yml.
Proof.
  rewrite generate_quarto_yml_eq. intros Hyml HT Hi Hj Hij Hp.
  destruct (gather (section_of root) teams) as [|entries] eqn:Hg; [done|].
  apply inr_eq in Hyml as <-.
  apply gather_inr in Hg as (ys & Hys & ->).
  destruct (Forall2_lookup_l _ _ _ _ _ Hys HT) as (y & Hy & HsT).
  unfold section_of in HsT.
  destruct (gather (nav_of root) (files T)) as [|lines] eqn:Hl; [done|].
  apply gather_inr in Hl as (ns & Hns & ->).
  destruct (Forall2_lookup_l _ _ _ _ _ Hns Hi) as (n1 & Hn1 & ->%nav_of_inr).
  destruct (Forall2_lookup_l _ _ _ _ _ Hns Hj) as (n2 & Hn2 & ->%nav_of_inr).
  rewrite <- Hp in Hn2.
  set (L := nav_line (rel_of root (path d1))) in *.
  assert (exists a b c, concat ns = a ++ L :: b ++ L :: c) as (a & b & c & E).
  { destruct (concat_lookup_2 _ _ _ _ _ Hij Hn1 Hn2) as (a & b & c & E).
    by exists a, b, c. }
  assert (y = [nav_section (team_name T) (concat ns)]) as ->.
  { destruct (concat ns) as [|l0 ls0]; [by destruct a|].
    by apply inr_eq in HsT. }
  rewrite E in *. clear HsT.
  apply twice_app_l.
  destruct (concat_lookup _ _ _ Hy) as (s1 & s2 & Es).
  destruct (concat ys) as [|e0 es0]; [by destruct s1|].
  rewrite Es. apply twice_app_r.
  change (s1 ++ [nav_section (team_name T) (a ++ L :: b ++ L :: c)] ++ s2)
    with (s1 ++ nav_section (team_name T) (a ++ L :: b ++ L :: c) :: s2).
  rewrite join_middle. apply twice_app_l, twice_app_r.
  unfold nav_section. do 7 apply twice_app_l.
  apply (join_twice nl _ (length a) (length a + S (length b))); [lia| |].
  - by apply list_lookup_middle.
  - rewrite lookup_app_r by lia.
    replace (length a + S (length b) - length a) with (S (length b)) by lia.
    change ((L :: b ++ L :: c) !! S (length b)) with ((b ++ L :: c) !! length b).
    by apply list_lookup_middle.
Qed.

Ltac twice_ctx :=
  solve [assumption | apply twice_app_l; twice_ctx | apply twice_app_r; twice_ctx].

(** Two file entries of one team with the same name and path: the
    landing page holds their link line twice. *)
Lemma index_lists_twice (fs : node) (root : Path) (teams : list Team)
    (idx : text) (k i j : nat) (T : Team) (d1 d2 : Doc) :
  create_index_qmd fs root teams = inr idx ->
  teams !! k = Some T ->
  files T !! i = Some d1 -> files T !! j = Some d2 -> i < j ->
  path d1 = path d2 -> name d1 = name d2 ->
  twice (link_line (name d1) (rel_of root (path d1))) idx.
Proof.
  destruct (create_index_qmd_eq fs root teams) as (front & -> & _).
  intros Hidx HT Hi Hj Hij Hp Hn.
  destruct front as [|[title body_content]]; [done|].
  unfold team_links_of in Hidx.
  destruct teams as [|t0 teams'] eqn:Et; [done|]. rewrite <- Et in *. clear Et.
  destruct (gather (block_of root) teams) as [|blocks] eqn:Hg; [done|].
  apply inr_eq in Hidx as <-.
  apply gather_inr in Hg as (ys & Hys & ->).
  destruct (Forall2_lookup_l _ _ _ _ _ Hys HT) as (y & Hy & HbT).
  unfold block_of in HbT.
  destruct (gather (links_of root) (files T)) as [|links] eqn:Hl; [done|].
  apply inr_eq in HbT as <-.
  apply gather_inr in Hl as (ls & Hls & ->).
  destruct (Forall2_lookup_l _ _ _ _ _ Hls Hi) as (l1 & Hl1 & ->%links_of_inr).
  destruct (Forall2_lookup_l _ _ _ _ _ Hls Hj) as (l2 & Hl2 & ->%links_of_inr).
  rewrite <- Hp, <- Hn in Hl2.
  pose proof (concat_twice _ _ _ _ Hij Hl1 Hl2) as Htw.
  destruct (concat_lookup _ _ _ Hy) as (s1 & s2 & ->).
  unfold page. twice_ctx.
Qed.

(** C10, as amended.  Let the file entries of a team hold the document
    [X.qmd] and, after the entries [pre], the convertible file [X.py],
    for a non-empty [X].  The conversion of [X.py] aims at the path of
    [X.qmd], and the conversion step leaves the entry of [X.qmd] as it
    was.  The step runs the conversion of [X.py] once, in the world that
    the entries before it leave, and the entry of [X.py] follows the
    result of that run.  When the run returns a result, the result is
    the path of [X.qmd] and a file is there afterwards, written over the
    discovered document by the manual transform itself when the
    converter executable is missing; the entry of [X.py] becomes a
    quarto entry with that path, so that two entries of the team hold
    the same path, and the configuration and the landing page generated
    from the team each list it twice.  When the run returns no result,
    the entry of [X.py] keeps its path and its kind. *)
Theorem same_stem_conversion (os : OS) (dir : Path) (X : text)
    (pre post fl' : list Doc) (i : nat) (w w' : World) :
  X <> [] ->
  let py_file := child dir (X ++ lit ".py") in
  let target := child dir (X ++ lit ".qmd") in
  let fl := pre ++ doc_of dir (X ++ lit ".py") jupytext :: post in
  fl !! i = Some (doc_of dir (X ++ lit ".qmd") quarto) ->
  convert_files os fl w = (Ret fl', w') ->
  qmd_target py_file (parent py_file) = target /\
  fl' !! i = Some {| path := target; type := quarto; name := X |} /\
  i <> length pre /\
  exists pre' w1 r w2,
    convert_files os pre w = (Ret pre', w1) /\
    convert_jupytext_to_qmd os py_file (parent py_file) w1 = (Ret r, w2) /\
    match r with
    | Some q =>
        q = target /\ exists_ (disk w2) target = true /\
        (os_run os w1 (jupytext_argv py_file target) None = NotFound ->
         exists content,
           read_text (disk w1) py_file = inr content /\
           read_text (disk w2) target = inr (manual_qmd_text X content)) /\
        fl' !! length pre
        = Some {| path := target; type := quarto; name := X |} /\
        forall root teams k T,
          teams !! k = Some T -> files T = fl' ->
          (forall yml, generate_quarto_yml root teams = inr yml ->
                       twice (nav_line (rel_of root target)) yml) /\
          (forall fs idx, create_index_qmd fs root teams = inr idx ->
                          twice (link_line X (rel_of root target)) idx)
    | None =>
        fl' !! length pre
        = Some {| path := py_file; type := jupytext; name := X |}
    end.
Proof.
  intros HX py_file target fl Hi Hconv.
  assert (qmd_target py_file (parent py_file) = target) as Htarget.
  { unfold qmd_target, py_file, target.
    by rewrite parent_child, stem_child, stem_of_py. }
  assert (i <> length pre) as Hne.
  { intros ->. unfold fl in Hi. rewrite list_lookup_middle in Hi by done.
    unfold doc_of in Hi. congruence. }
  assert (fl' !! i = Some {| path := target; type := quarto; name := X |}) as Hi'.
  { pose proof (convert_files_Ret _ _ _ _ _ Hconv) as Hall.
    destruct (Forall2_lookup_l _ _ _ _ _ Hall Hi) as (d1 & Hd1 & H1).
    unfold doc_of in H1. cbn [type path name] in H1.
    rewrite stem_of_qmd in H1 by done.
    destruct H1 as [->|[? _]]; [|done]. exact Hd1. }
  split; [done|]. split; [done|]. split; [done|].
  unfold fl in Hconv.
  apply convert_files_app in Hconv
    as (pre' & post' & w1 & Hpre & Hpost & -> & Hlen).
  cbn [convert_files] in Hpost.
  inv_bind Hpost as d' w2 Hd. inv_bind Hpost as rest w3 Hrest.
  injection Hpost as <- <-.
  unfold convert_file in Hd. rewrite bool_decide_eq_true_2 in Hd by done.
  unfold doc_of in Hd. cbn [path name] in Hd. fold py_file in Hd.
  rewrite stem_of_py in Hd by done.
  inv_bind Hd as r w4 Hr. exists pre', w1, r, w4.
  split; [done|]. split; [done|].
  assert ((pre' ++ d' :: rest) !! length pre = Some d') as Hj.
  { rewrite <- Hlen. by apply list_lookup_middle. }
  destruct r as [q|].
  - injection Hd as <- <-.
    pose proof Hr as [Hq Hex]%convert_Some. rewrite Htarget in Hq. subst q.
    split; [done|]. split; [done|]. split.
    { intros Hrun. rewrite <- Htarget in Hrun.
      rewrite (convert_not_found _ _ _ _ Hrun), manual_jupytext_to_qmd_eq in Hr.
      cbn zeta in Hr. cbn [logged disk] in Hr.
      destruct (read_text (disk w1) py_file) as [e|content]; [done|].
      destruct (write_node _ _ _) as [e|d''] eqn:Hw; [done|].
      injection Hr as _ <-. exists content. split; [done|]. cbn [disk].
      rewrite Htarget in Hw. unfold py_file in Hw.
      rewrite stem_child, stem_of_py in Hw by done.
      by apply (read_text_written _ _ _ _ Hw). }
    split; [done|].
    intros root teams k T HT HTf. rewrite <- HTf in Hi', Hj.
    assert (i < length pre \/ length pre < i) as [Hlt|Hlt] by lia.
    + split.
      * intros yml Hyml.
        by apply (yml_lists_twice _ _ _ _ _ _ _ _ _ Hyml HT Hi' Hj Hlt).
      * intros fs idx Hidx.
        by apply (index_lists_twice _ _ _ _ _ _ _ _ _ _ Hidx HT Hi' Hj Hlt).
    + split.
      * intros yml Hyml.
        by apply (yml_lists_twice _ _ _ _ _ _ _ _ _ Hyml HT Hj Hi' Hlt).
      * intros fs idx Hidx.
        by apply (index_lists_twice _ _ _ _ _ _ _ _ _ _ Hidx HT Hj Hi' Hlt).
  - by injection Hd as <- <-.
Qed.

(** ** Re-scanning the output of the manual transform *)

Lemma split_nl_nonempty (s : text) : split_nl s <> [].
Proof.
  induction s as [|c s IH]; [done|]. simpl.
  destruct (N.eqb c newline); [done|]. by destruct (split_nl s).
Qed.

Lemma split_nl_app_nl (a b : text) :
  split_nl (a ++ nl ++ b) = split_nl a ++ split_nl b.
Proof.
  induction a as [|c a IH]; [done|]. cbn [app split_nl]. rewrite IH.
  destruct (N.eqb c newline); [done|].
  pose proof (split_nl_nonempty a). by destruct (split_nl a).
Qed.















(** * The properties on the sample project *)

Lemma discover_team_projects_spec_sample :
  is_dir sample_disk sample_src = true /\
  exists teams,
    discover_team_projects sample_disk sample_src = inr teams /\
    StronglySorted text_lt (team_name <$> teams).
Proof.
  split; [vm_compute; reflexivity|].
  destruct (discover_team_projects_spec sample_disk sample_src)
    as (teams & H & _ & _ & Hs & _); [vm_compute; reflexivity|].
  exists teams. split; assumption.
Defined.

Lemma skipped_dirs_never_discovered_sample :
  discover_team_projects sample_disk sample_src = inr sample_teams /\
  hidden (lit ".git") /\
  Forall (fun t => team_name t <> lit ".git") sample_teams.
Proof.
  assert (discover_team_projects sample_disk sample_src = inr sample_teams) as H
    by (vm_compute; reflexivity).
  assert (hidden (lit ".git")) as Hh by (vm_compute; reflexivity).
  split; [exact H|]. split; [exact Hh|].
  apply Forall_forall. intros t Ht.
  exact (proj1 (skipped_dirs_never_discovered sample_disk sample_src sample_teams
                  (lit ".git") H (or_introl Hh) t Ht)).
Defined.

Lemma external_conversion_result_sample :
  os_run failing_tools sample_world
    (jupytext_argv (child sample_team_dir (lit "x.py"))
       (qmd_target (child sample_team_dir (lit "x.py")) sample_team_dir)) None
  = Completed 1 [] (lit "failed") sample_disk /\
  exists w',
    convert_jupytext_to_qmd failing_tools (child sample_team_dir (lit "x.py"))
      sample_team_dir sample_world = (Ret None, w') /\
    length (launched w') = 1.
Proof.
  split; [reflexivity|].
  destruct (external_conversion_result failing_tools sample_world
              (child sample_team_dir (lit "x.py")) sample_team_dir
              1 [] (lit "failed") sample_disk eq_refl)
    as (r & w' & Hc & _ & Hnone & Hl & _).
  assert (r = None) as -> by (apply Hnone; intros [? _]; discriminate).
  exists w'. split; [exact Hc|]. rewrite Hl. reflexivity.
Defined.

Lemma render_failure_exits_1_sample :
  build_site_generate no_tools sample_script_dir [] sample_world
  = (Ret sample_root,
     snd (build_site_generate no_tools sample_script_dir [] sample_world)) /\
  exists w2,
    build_site no_tools sample_script_dir [] sample_world = (Exit 1, w2) /\
    last (console w2) = Some (nl ++ lit "Build failed!").
Proof.
  assert (build_site_generate no_tools sample_script_dir [] sample_world
          = (Ret sample_root,
             snd (build_site_generate no_tools sample_script_dir [] sample_world)))
    as Hgen by (vm_compute; reflexivity).
  split; [exact Hgen|].
  destruct (render_failure_exits_1 no_tools sample_script_dir [] sample_world
              _ sample_root Hgen) as (_ & Hfail & _).
  destruct Hfail as (w2 & H2 & _ & Hlast); [left; reflexivity|].
  exists w2. split; assumption.
Defined.



Lemma landing_page_default_sample :
  exists_ sample_disk (child sample_root (lit "index.html")) = false /\
  Forall (fun t => Forall (fun f => below sample_root (path f)) (files t))
    sample_teams /\
  create_index_qmd sample_disk sample_root sample_teams =
  inr (default_front_matter ++ nl ++ [] ++ nl ++ nl
       ++ team_section sample_root sample_teams ++ nl).
Proof.
  assert (exists_ sample_disk (child sample_root (lit "index.html")) = false) as H1
    by (vm_compute; reflexivity).
  assert (Forall (fun t => Forall (fun f => below sample_root (path f)) (files t))
            sample_teams) as H2
    by (refine (bool_decide_unpack _ _); vm_compute; exact I).
  split; [exact H1|]. split; [exact H2|].
  exact (landing_page_default sample_disk sample_root sample_teams H1 H2).
Defined.

(** The claim C6 as stated fails on the sample project: there is no
    legacy HTML file, and the landing page does not hold the default
    description. *)
Lemma landing_page_lacks_description :
  exists_ sample_disk (child sample_root (lit "index.html")) = false /\
  exists index_qmd,
    create_index_qmd sample_disk sample_root sample_teams = inr index_qmd /\
    contains (lit "Data Dive 2025") index_qmd = true /\
    contains default_description index_qmd = false.
Proof.
  split; [vm_compute; reflexivity|]. eexists. split; [vm_compute; reflexivity|].
  split; vm_compute; reflexivity.
Qed.

Lemma manual_without_second_marker_sample :
  marker_count (lit "# --- jupytext: x") < 2 /\
  contains (lit "# ---") (take 500 (lit "# --- jupytext: x"))
  && contains (lit "jupytext:") (take 1000 (lit "# --- jupytext: x")) = true /\
  exists meta,
    meta <> [] /\
    manual_qmd_lines (lit "x") (lit "# --- jupytext: x")
    = [lit "---"] ++ meta ++ [lit "---" ++ nl].
Proof.
  assert (marker_count (lit "# --- jupytext: x") < 2) as H
    by (vm_compute; lia).
  split; [exact H|]. split; [vm_compute; reflexivity|].
  destruct (manual_without_second_marker (lit "x") (lit "# --- jupytext: x") H)
    as (meta & Hne & Hl & _).
  exists meta. split; assumption.
Defined.

Lemma same_stem_conversion_sample :
  lit "x" <> [] /\
  ([doc_of sample_team_dir (lit "notes.md") markdown;
    doc_of sample_team_dir (lit "x.qmd") quarto]
   ++ doc_of sample_team_dir (lit "x" ++ lit ".py") jupytext :: []) !! 1
  = Some (doc_of sample_team_dir (lit "x" ++ lit ".qmd") quarto) /\
  exists fl' w',
    convert_files no_tools
      ([doc_of sample_team_dir (lit "notes.md") markdown;
        doc_of sample_team_dir (lit "x.qmd") quarto]
       ++ doc_of sample_team_dir (lit "x" ++ lit ".py") jupytext :: [])
      sample_world = (Ret fl', w') /\
    fl' !! 1 = Some {| path := child sample_team_dir (lit "x" ++ lit ".qmd");
                       type := quarto; name := lit "x" |} /\
    fl' !! 2 = Some {| path := child sample_team_dir (lit "x" ++ lit ".qmd");
                       type := quarto; name := lit "x" |} /\
    read_text (disk w') (child sample_team_dir (lit "x" ++ lit ".qmd"))
    = inr (manual_qmd_text (lit "x") notebook_py) /\
    exists yml,
      generate_quarto_yml sample_root
        [{| team_name := lit "Alpha"; team_path := sample_team_dir;
            files := fl' |}] = inr yml /\
      twice (nav_line (rel_of sample_root
                         (child sample_team_dir (lit "x" ++ lit ".qmd")))) yml.
Proof.
  assert (lit "x" <> []) as H by (vm_compute; discriminate).
  split; [exact H|].
  assert (([doc_of sample_team_dir (lit "notes.md") markdown;
            doc_of sample_team_dir (lit "x.qmd") quarto]
           ++ doc_of sample_team_dir (lit "x" ++ lit ".py") jupytext :: []) !! 1
          = Some (doc_of sample_team_dir (lit "x" ++ lit ".qmd") quarto)) as Hi
    by (vm_compute; reflexivity).
  split; [exact Hi|].
  eassert (convert_files no_tools
             ([doc_of sample_team_dir (lit "notes.md") markdown;
               doc_of sample_team_dir (lit "x.qmd") quarto]
              ++ doc_of sample_team_dir (lit "x" ++ lit ".py") jupytext :: [])
             sample_world = (Ret _, _)) as Hc
    by (vm_compute; reflexivity).
  eexists _, _. split; [exact Hc|].
  destruct (same_stem_conversion no_tools sample_team_dir (lit "x") _ _ _ _ _ _
              H Hi Hc)
    as (_ & Hi' & _ & pre' & w1 & r & w2 & Hpre & Hr & Hm).
  split; [exact Hi'|].
  destruct r as [q|].
  - destruct Hm as (_ & _ & Hover & Hj & Htw).
    split; [exact Hj|]. split; [vm_compute; reflexivity|].
    eexists. split; [vm_compute; reflexivity|].
    apply (Htw sample_root
             [{| team_name := lit "Alpha"; team_path := sample_team_dir;
                 files := _ |}] 0 _ eq_refl eq_refl).
    vm_compute. reflexivity.
  - exfalso. vm_compute in Hm. discriminate Hm.
Defined.

(** The claim C10 as stated fails on the sample project when the
    converter is installed and fails: the team holds [x.qmd] and the
    convertible [x.py], the conversion step writes nothing, [x.qmd] keeps
    its text and no two file entries hold the same path. *)
Lemma failed_conversion_keeps_paths_apart :
  discover_team_projects sample_disk sample_src = inr sample_teams /\
  exists_ sample_disk (child sample_team_dir (lit "x.qmd")) = true /\
  is_jupytext_file sample_disk (child sample_team_dir (lit "x.py")) = true /\
  exists teams' w',
    convert_teams failing_tools sample_teams sample_world = (Ret teams', w') /\
    read_text (disk w') (child sample_team_dir (lit "x.qmd")) = inr (lit "old") /\
    NoDup (path <$> (teams' ≫= files)).
Proof.
  split; [vm_compute; reflexivity|]. split; [vm_compute; reflexivity|].
  split; [vm_compute; reflexivity|]. eexists _, _.
  split; [vm_compute; reflexivity|]. split; [vm_compute; reflexivity|].
  refine (bool_decide_unpack _ _). vm_compute. exact I.
Qed.

(** * Further properties of the script *)

(** ** Discovery: the team source directory *)

Lemma discover_without_directory_aux (fs : node) (src : Path) :
  (exists_ fs src = false -> discover_team_projects fs src = inr []) /\
  (forall data, lookup_path src fs = Some (File data) ->
                discover_team_projects fs src = inl NotADirectoryError).
Proof.
  unfold discover_team_projects, exists_, iterdir. split.
  - by destruct (lookup_path src fs).
  - by intros data ->.
Qed.

(** X1.  Discovery of a team source directory that does not exist
    returns no team, without an error; when the path is a file,
    listing it raises [NotADirectoryError]. *)
Theorem discover_without_directory (fs : node) (src : Path) :
  (exists_ fs src = false -> discover_team_projects fs src = inr []) /\
  (forall data, lookup_path src fs = Some (File data) ->
                discover_team_projects fs src = inl NotADirectoryError).
Proof. apply discover_without_directory_aux. Qed.

(** X2.  The convertibility predicate looks at the first 1000 characters
    only: two files whose texts agree on them are classified alike,
    whatever follows. *)
Theorem is_jupytext_file_prefix (fs1 fs2 : node) (p1 p2 : Path) (c1 c2 : text) :
  read_text fs1 p1 = inr c1 -> read_text fs2 p2 = inr c2 ->
  take 1000 c1 = take 1000 c2 ->
  is_jupytext_file fs1 p1 = is_jupytext_file fs2 p2.
Proof.
  intros H1 H2 E. unfold is_jupytext_file. rewrite H1, H2, E.
  f_equal.
  assert (forall c : text, take 500 c = take 500 (take 1000 c)) as Ht.
  { intros c. rewrite take_take. f_equal. }
  by rewrite (Ht c1), (Ht c2), E.
Qed.

Lemma is_jupytext_file_prefix_sample :
  let c1 := notebook_py ++ replicate 1000 32%N ++ lit "x = 1" in
  let c2 := notebook_py ++ replicate 1000 32%N ++ lit "# ---" in
  let fs1 := Dir {[ lit "a.py" := File (Some c1) ]} in
  let fs2 := Dir {[ lit "b.py" := File (Some c2) ]} in
  read_text fs1 [lit "a.py"] = inr c1 /\
  read_text fs2 [lit "b.py"] = inr c2 /\
  take 1000 c1 = take 1000 c2 /\
  is_jupytext_file fs1 [lit "a.py"] = is_jupytext_file fs2 [lit "b.py"].
Proof.
  intros c1 c2 fs1 fs2.
  assert (read_text fs1 [lit "a.py"] = inr c1) as H1 by (vm_compute; reflexivity).
  assert (read_text fs2 [lit "b.py"] = inr c2) as H2 by (vm_compute; reflexivity).
  assert (take 1000 c1 = take 1000 c2) as H3 by (vm_compute; reflexivity).
  split; [exact H1|]. split; [exact H2|]. split; [exact H3|].
  exact (is_jupytext_file_prefix fs1 fs2 _ _ _ _ H1 H2 H3).
Defined.

(** ** The root directory *)

(** X3.  A script that lies in [<root>/.github/workflows] finds [<root>],
    whatever the working directory is; a script directory of another
    name gives the working directory. *)
Theorem get_root_dir_spec (root cwd script_dir : Path) :
  get_root_dir (child (child root (lit ".github")) (lit "workflows")) cwd = root /\
  (name_of script_dir <> lit "workflows" -> get_root_dir script_dir cwd = cwd) /\
  (name_of (parent script_dir) <> lit ".github" ->
   get_root_dir script_dir cwd = cwd).
Proof.
  unfold get_root_dir. split; [|split].
  - rewrite !parent_child, !name_of_child.
    by rewrite !bool_decide_eq_true_2 by done.
  - intros H. by rewrite (bool_decide_eq_false_2 _ H).
  - intros H. rewrite (bool_decide_eq_false_2 _ H). by rewrite andb_false_r.
Qed.

(** ** The configuration *)

Lemma gather_inl {A S} (g : A -> exn + list S) (xs : list A) (e : exn) :
  gather g xs = inl e -> exists x, x ∈ xs /\ g x = inl e.
Proof.
  induction xs as [|x xs IH]; [done|]. cbn [gather].
  destruct (g x) as [e'|y] eqn:Hx.
  - intros [= ->]. exists x. split; [by left|done].
  - destruct (gather g xs) as [e'|ys]; [|done].
    intros [= ->]. destruct IH as (x' & ? & ?); [done|].
    exists x'. split; [by right|done].
Qed.

Lemma gather_inr_Forall {A S} (g : A -> exn + list S) (xs : list A) (r : list S) :
  gather g xs = inr r -> Forall (fun x => exists y, g x = inr y) xs.
Proof.
  intros (ys & Hys & _)%gather_inr.
  induction Hys; constructor; eauto.
Qed.

Lemma nav_of_below (root : Path) (f : Doc) :
  below root (path f) -> nav_of root f = inr [nav_line (rel_of root (path f))].
Proof. intros Hb. unfold nav_of. by rewrite rel_path_str_below. Qed.

Lemma concat_singletons {A B} (h : A -> B) (xs : list A) :
  concat ((fun x => [h x]) <$> xs) = h <$> xs.
Proof.
  induction xs as [|x xs IH]; [done|].
  rewrite !fmap_cons. cbn [concat app]. by rewrite IH.
Qed.

Lemma section_of_below (root : Path) (t : Team) :
  Forall (fun f => below root (path f)) (files t) ->
  section_of root t =
  inr (if decide (files t <> []) then [section_text root t] else []).
Proof.
  intros Hb. unfold section_of, section_text.
  rewrite (gather_total _ (fun f => [nav_line (rel_of root (path f))])).
  - rewrite concat_singletons. destruct (files t) as [|f fl]; [done|].
    by rewrite decide_True.
  - eapply Forall_impl; [exact Hb|]. apply nav_of_below.
Qed.

Lemma concat_filter_fmap {A B} (P : A -> Prop) `{!forall x, Decision (P x)}
    (h : A -> B) (xs : list A) :
  concat ((fun x => if decide (P x) then [h x] else []) <$> xs)
  = h <$> filter P xs.
Proof.
  induction xs as [|x xs IH]; [done|]. rewrite fmap_cons. cbn [concat].
  rewrite filter_cons, IH. by destruct (decide (P x)).
Qed.

Lemma generate_quarto_yml_all_below (root : Path) (teams : list Team) :
  all_below root teams ->
  generate_quarto_yml root teams =
  inr (config_head ++ sidebar_of root teams ++ nl ++ config_tail).
Proof.
  intros Hb. rewrite generate_quarto_yml_eq.
  rewrite (gather_total _ (fun t => if decide (files t <> [])
                                    then [section_text root t] else [])).
  - rewrite concat_filter_fmap. unfold sidebar_of.
    by destruct (section_text root <$> _).
  - eapply Forall_impl; [exact Hb|]. apply section_of_below.
Qed.

(** X4.  When every document lies below the root, the configuration is
    the fixed head, the sidebar and the fixed tail; the sidebar holds, in
    the order of the teams, one section for each team that has files,
    with one line per file and its root-relative path, and it is the
    single fallback link when no team has files. *)
Theorem generate_quarto_yml_below (root : Path) (teams : list Team) :
  all_below root teams ->
  generate_quarto_yml root teams =
  inr (config_head ++ sidebar_of root teams ++ nl ++ config_tail).
Proof. apply generate_quarto_yml_all_below. Qed.

Lemma generate_quarto_yml_below_sample :
  all_below sample_root sample_teams /\
  generate_quarto_yml sample_root sample_teams =
  inr (config_head ++ sidebar_of sample_root sample_teams ++ nl ++ config_tail).
Proof.
  assert (all_below sample_root sample_teams) as H
    by (refine (bool_decide_unpack _ _); vm_compute; exact I).
  split; [exact H|]. exact (generate_quarto_yml_below _ _ H).
Defined.

(** X5.  The configuration is generated exactly when every document lies
    below the root; otherwise the only exception is the [ValueError] of
    the first document that does not. *)
Theorem generate_quarto_yml_raises (root : Path) (teams : list Team) :
  (all_below root teams <->
   exists yml, generate_quarto_yml root teams = inr yml) /\
  (forall e, generate_quarto_yml root teams = inl e ->
             e = ValueError /\
             exists t f, t ∈ teams /\ f ∈ files t /\ ~ below root (path f)).
Proof.
  split; [split|].
  - intros Hb. rewrite generate_quarto_yml_all_below by done. eauto.
  - intros [yml Hy]. rewrite generate_quarto_yml_eq in Hy.
    destruct (gather (section_of root) teams) as [|entries] eqn:Hg; [done|].
    apply gather_inr_Forall in Hg. eapply Forall_impl; [exact Hg|].
    intros t [y Ht]. unfold section_of in Ht.
    destruct (gather (nav_of root) (files t)) as [|ls] eqn:Hl; [done|].
    apply gather_inr_Forall in Hl. eapply Forall_impl; [exact Hl|].
    intros f [l Hf]. unfold nav_of, rel_path_str, below in *.
    by destruct (relative_to (path f) root).
  - intros e. rewrite generate_quarto_yml_eq.
    destruct (gather (section_of root) teams) as [e'|entries] eqn:Hg; [|done].
    intros [= ->]. apply gather_inl in Hg as (t & Ht & Hs).
    unfold section_of in Hs.
    destruct (gather (nav_of root) (files t)) as [e'|ls] eqn:Hl;
      [|by destruct ls].
    injection Hs as ->. apply gather_inl in Hl as (f & Hf & Hn).
    unfold nav_of, rel_path_str, below in *.
    destruct (relative_to (path f) root) eqn:Hr; [done|].
    injection Hn as <-. split; [done|]. exists t, f.
    split; [done|]. split; [done|]. rewrite Hr. by intros [? ?].
Qed.

(** ** From discovery to generation *)

Lemma relative_to_app (root r : Path) : relative_to (root ++ r) root = Some r.
Proof.
  induction root as [|c root IH]; [by destruct r|].
  cbn [app relative_to]. by rewrite decide_True.
Qed.

Lemma in_team_dir_below (root : Path) (tp : text) (p : Path) :
  in_team_dir (child root tp) p -> below root p.
Proof.
  intros (n & f & ->). unfold below, child.
  rewrite <- !app_assoc, relative_to_app. eauto.
Qed.

Lemma discovered_in_team_dir (fs : node) (src : Path) (teams : list Team) :
  discover_team_projects fs src = inr teams ->
  Forall (fun t => Forall (fun f => in_team_dir src (path f)) (files t)) teams.
Proof.
  intros Hd. destruct (lookup_path src fs) as [[|es]|] eqn:Hs.
  - unfold discover_team_projects, exists_, iterdir in Hd. by rewrite Hs in Hd.
  - rewrite (discover_eq _ _ es Hs) in Hd. apply inr_eq in Hd as <-.
    apply Forall_forall. intros t Ht.
    apply (discovered_team _ _ es) in Ht as (n & _ & (Hdir & _) & ->); [|done].
    apply Forall_forall. intros d Hin. cbn [files team_of] in Hin.
    apply team_files_elem in Hin as (f & k & _ & ->); [|done].
    by exists n, f.
  - unfold discover_team_projects, exists_ in Hd. rewrite Hs in Hd.
    apply inr_eq in Hd as <-. constructor.
Qed.

Lemma convert_teams_Ret (os : OS) (teams teams' : list Team) (w w' : World) :
  convert_teams os teams w = (Ret teams', w') ->
  Forall2 (fun t t' =>
             team_name t' = team_name t /\ team_path t' = team_path t /\
             Forall2 (fun f f' =>
                        f' = f \/
                        (type f = jupytext /\
                         f' = {| path := qmd_target (path f) (parent (path f));
                                 type := quarto; name := name f |}))
               (files t) (files t')) teams teams'.
Proof.
  revert teams' w. induction teams as [|t teams IH]; intros teams' w;
    cbn [convert_teams].
  - intros [= <- <-]. constructor.
  - intros H. inv_bind H as fl' w1 Hf. inv_bind H as rest w2 Hr.
    injection H as <- <-. constructor; [|eauto].
    cbn [team_name team_path files]. eauto using convert_files_Ret.
Qed.

Lemma converted_in_team_dir (src : Path) (f f' : Doc) :
  in_team_dir src (path f) ->
  f' = f \/
  (type f = jupytext /\
   f' = {| path := qmd_target (path f) (parent (path f));
           type := quarto; name := name f |}) ->
  in_team_dir src (path f').
Proof.
  intros Hin [->|[_ ->]]; [done|]. destruct Hin as (n & x & E).
  cbn [path]. rewrite E. unfold qmd_target. rewrite parent_child. by eexists _, _.
Qed.

(** X6.  The documents that discovery finds in [<root>/Team_Projects] lie
    below the root, and so do the documents after the conversion step,
    whatever the converter does: the configuration is then generated
    without a [ValueError]. *)
Theorem generation_after_discovery (os : OS) (fs : node) (root : Path)
    (teams teams' : list Team) (w w' : World) :
  discover_team_projects fs (child root (lit "Team_Projects")) = inr teams ->
  convert_teams os teams w = (Ret teams', w') ->
  all_below root teams /\ all_below root teams' /\
  generate_quarto_yml root teams' =
  inr (config_head ++ sidebar_of root teams' ++ nl ++ config_tail).
Proof.
  intros Hd Hc. apply discovered_in_team_dir in Hd. apply convert_teams_Ret in Hc.
  assert (all_below root teams) as H1.
  { eapply Forall_impl; [exact Hd|]. intros t Ht.
    eapply Forall_impl; [exact Ht|]. intros f. apply in_team_dir_below. }
  assert (all_below root teams') as H2.
  { clear H1. induction Hc as [|t t' ts ts' (_ & _ & Hf) _ IH]; [constructor|].
    apply Forall_cons in Hd as [Ht Hd]. constructor; [|by apply IH].
    clear IH Hd. induction Hf as [|f f' fl fl' Hff _ IH]; [constructor|].
    apply Forall_cons in Ht as [Hf0 Ht]. constructor; [|by apply IH].
    eapply in_team_dir_below, converted_in_team_dir; eauto. }
  split; [done|]. split; [done|]. by apply generate_quarto_yml_all_below.
Qed.

Lemma generation_after_discovery_sample :
  let r := convert_teams no_tools sample_teams sample_world in
  let teams' := match fst r with Ret ts => ts | _ => [] end in
  discover_team_projects sample_disk (child sample_root (lit "Team_Projects"))
  = inr sample_teams /\
  r = (Ret teams', snd r) /\
  all_below sample_root teams'.
Proof.
  intros r teams'.
  assert (discover_team_projects sample_disk
            (child sample_root (lit "Team_Projects")) = inr sample_teams) as H1
    by (vm_compute; reflexivity).
  assert (r = (Ret teams', snd r)) as H2 by (vm_compute; reflexivity).
  split; [exact H1|]. split; [exact H2|].
  exact (proj1 (proj2 (generation_after_discovery no_tools sample_disk
                         sample_root sample_teams teams' sample_world (snd r)
                         H1 H2))).
Defined.

(** ** The manual transform: results and errors *)


(** ** The manual transform: the header *)

Lemma body_step_skip_nonmarker (st : scan) (l : text) :
  skip_header st = true -> is_marker_line l = false -> body_step st l = st.
Proof. intros Hs Hm. unfold body_step. by rewrite Hs, Hm. Qed.

Lemma body_skip_nonmarkers (ls : list text) (st : scan) :
  skip_header st = true ->
  Forall (fun l => is_marker_line l = false) ls ->
  foldl body_step st ls = st.
Proof.
  intros Hs Hl. induction Hl as [|l ls Hm _ IH]; [done|].
  cbn [foldl]. by rewrite body_step_skip_nonmarker.
Qed.

Lemma extract_yaml_skip (pre rest acc : list text) :
  Forall (fun l => is_marker_line l = false) pre ->
  extract_yaml (pre ++ rest) false acc = extract_yaml rest false acc.
Proof.
  induction 1 as [|l pre Hm _ IH]; [done|].
  cbn [app extract_yaml]. by rewrite Hm.
Qed.

(** X8.  What precedes the first marker line is ignored: a text before the
    header, none of whose lines strips to the marker line, changes
    nothing in what the manual transform writes. *)
Theorem manual_ignores_preamble (stem_ preamble content : text) :
  Forall (fun l => is_marker_line l = false) (split_nl preamble) ->
  manual_qmd_text stem_ (preamble ++ nl ++ content)
  = manual_qmd_text stem_ content.
Proof.
  intros Hp. unfold manual_qmd_text, manual_qmd_lines. cbn zeta.
  rewrite split_nl_app_nl, extract_yaml_skip by done.
  rewrite foldl_app.
  by rewrite (body_skip_nonmarkers (split_nl preamble)) by done.
Qed.

Lemma manual_ignores_preamble_sample :
  Forall (fun l => is_marker_line l = false)
    (split_nl (lit "#!/usr/bin/env python3" ++ nl ++ lit "# coding: utf-8")) /\
  manual_qmd_text (lit "x")
    ((lit "#!/usr/bin/env python3" ++ nl ++ lit "# coding: utf-8")
     ++ nl ++ notebook_py)
  = manual_qmd_text (lit "x") notebook_py.
Proof.
  assert (Forall (fun l => is_marker_line l = false)
            (split_nl (lit "#!/usr/bin/env python3" ++ nl
                       ++ lit "# coding: utf-8"))) as H
    by (refine (bool_decide_unpack _ _); vm_compute; exact I).
  split; [exact H|]. exact (manual_ignores_preamble _ _ _ H).
Defined.

(** ** The manual transform: cells *)

Lemma body_step_skip_marker (st : scan) (l : text) :
  skip_header st = true -> is_marker_line l = true ->
  body_step st l =
  {| qmd_lines := qmd_lines st; in_code_block := in_code_block st;
     skip_header := if (2 <=? header_end_count st + 1)%Z then false else true;
     header_end_count := (header_end_count st + 1)%Z |}.
Proof. intros Hs Hm. unfold body_step. by rewrite Hs, Hm. Qed.

(** After the two marker lines of the header the second loop stops
    skipping, and it has written nothing. *)
Lemma body_header_done (q : list text) (m1 m2 : text) (hdr : list text) :
  is_marker_line m1 = true -> is_marker_line m2 = true ->
  Forall (fun l => is_marker_line l = false) hdr ->
  foldl body_step
    {| qmd_lines := q; in_code_block := false; skip_header := true;
       header_end_count := 0 |} (m1 :: hdr ++ [m2])
  = {| qmd_lines := q; in_code_block := false; skip_header := false;
       header_end_count := 2 |}.
Proof.
  intros H1 H2 Hh. cbn [foldl]. rewrite body_step_skip_marker by done.
  rewrite foldl_app. cbn [qmd_lines in_code_block header_end_count].
  change (if (2 <=? 0 + 1)%Z then false else true) with true.
  change (0 + 1)%Z with 1%Z.
  rewrite (body_skip_nonmarkers hdr (mkScan q false true 1) eq_refl Hh).
  cbn [foldl]. by rewrite body_step_skip_marker by done.
Qed.

Lemma startswith_markdown_marker (l : text) :
  startswith l (lit "# %%") = false ->
  startswith l (lit "# %% [markdown]") = false.
Proof.
  intros H. apply not_true_is_false. intros [post ->]%startswith_spec.
  change (lit "# %% [markdown]" ++ post)
    with (lit "# %%" ++ (lit " [markdown]" ++ post)) in H.
  by rewrite startswith_app in H.
Qed.

Lemma body_step_code_line (st : scan) (l : text) :
  skip_header st = false -> in_code_block st = true ->
  startswith l (lit "# %%") = false ->
  body_step st l = emit st l true.
Proof.
  intros Hs Hc Hl. unfold body_step.
  by rewrite Hs, (startswith_markdown_marker _ Hl), Hl, Hc.
Qed.

Lemma body_code_lines (code : list text) (st : scan) :
  skip_header st = false -> in_code_block st = true ->
  Forall (fun l => startswith l (lit "# %%") = false) code ->
  foldl body_step st code =
  {| qmd_lines := qmd_lines st ++ code; in_code_block := true;
     skip_header := false; header_end_count := header_end_count st |}.
Proof.
  intros Hs Hc Hl. revert st Hs Hc.
  induction Hl as [|l code Hx _ IH]; intros st Hs Hc.
  - cbn [foldl]. rewrite app_nil_r. destruct st. by simplify_eq/=.
  - cbn [foldl]. rewrite body_step_code_line by done.
    rewrite IH by done. cbn [emit qmd_lines header_end_count].
    by rewrite <- app_assoc.
Qed.

Lemma body_step_markdown_line (st : scan) (l : text) :
  skip_header st = false -> in_code_block st = false ->
  startswith l (lit "# %%") = false ->
  body_step st l =
  match markdown_line l with
  | Some t => emit st t false
  | None => st
  end.
Proof.
  intros Hs Hc Hl. unfold body_step, markdown_line.
  rewrite Hs, (startswith_markdown_marker _ Hl), Hl, Hc. cbn [negb andb].
  destruct (startswith l (lit "# ")); [done|]. by case_bool_decide.
Qed.

Lemma body_markdown_lines (ls : list text) (st : scan) :
  skip_header st = false -> in_code_block st = false ->
  Forall (fun l => startswith l (lit "# %%") = false) ls ->
  foldl body_step st ls =
  {| qmd_lines := qmd_lines st ++ omap markdown_line ls; in_code_block := false;
     skip_header := false; header_end_count := header_end_count st |}.
Proof.
  intros Hs Hc Hl. revert st Hs Hc.
  induction Hl as [|l ls Hx _ IH]; intros st Hs Hc.
  - cbn [foldl omap list_omap]. rewrite app_nil_r. destruct st. by simplify_eq/=.
  - cbn [foldl]. rewrite body_step_markdown_line by done.
    cbn [omap list_omap]. destruct (markdown_line l) as [t|].
    + rewrite IH by done. cbn [emit qmd_lines header_end_count].
      by rewrite <- app_assoc.
    + by rewrite IH.
Qed.

Lemma extract_yaml_header (m1 m2 : text) (hdr rest : list text) :
  is_marker_line m1 = true -> is_marker_line m2 = true ->
  Forall (fun l => is_marker_line l = false) hdr ->
  extract_yaml (m1 :: hdr ++ m2 :: rest) false [] = yaml_line_of <$> hdr.
Proof.
  intros H1 H2 Hh. cbn [extract_yaml]. rewrite H1. cbn [andb negb].
  assert (forall acc, extract_yaml (hdr ++ m2 :: rest) true acc
                      = acc ++ (yaml_line_of <$> hdr)) as Hin.
  { induction Hh as [|l hdr Hm _ IH]; intros acc.
    - cbn [app extract_yaml]. rewrite H2. cbn [andb negb]. by rewrite app_nil_r.
    - cbn [app extract_yaml]. rewrite Hm. cbn [andb]. rewrite IH.
      by rewrite fmap_cons, <- app_assoc. }
  by rewrite Hin.
Qed.

(** X9.  A code cell after the header: when the source is a header
    between two marker lines, a cell marker line and code lines none of
    which begins with a cell marker, the manual transform writes the
    metadata block, an opening fence tagged with the language, the code
    lines as they are and in their order, and a closing fence. *)
Theorem manual_code_cell (stem_ content : text) (m1 m2 cell : text)
    (hdr code : list text) :
  split_nl content = m1 :: hdr ++ m2 :: cell :: code ->
  is_marker_line m1 = true -> is_marker_line m2 = true ->
  Forall (fun l => is_marker_line l = false) hdr ->
  startswith cell (lit "# %%") = true ->
  startswith cell (lit "# %% [markdown]") = false ->
  Forall (fun l => startswith l (lit "# %%") = false) code ->
  manual_qmd_lines stem_ content =
  [lit "---"]
  ++ match hdr with
     | [] => [title_line stem_]
     | _ :: _ => yaml_line_of <$> hdr
     end
  ++ [lit "---" ++ nl; nl ++ lit "```{python}"] ++ code ++ [lit "```"].
Proof.
  intros Hsplit H1 H2 Hh Hc1 Hc2 Hcode. unfold manual_qmd_lines. cbn zeta.
  rewrite Hsplit, extract_yaml_header by done.
  replace (m1 :: hdr ++ m2 :: cell :: code)
    with ((m1 :: hdr ++ [m2]) ++ cell :: code)
    by (cbn [app]; by rewrite <- app_assoc).
  rewrite foldl_app, body_header_done by done. cbn [foldl].
  assert (forall q,
            body_step {| qmd_lines := q; in_code_block := false;
                         skip_header := false; header_end_count := 2 |} cell
            = {| qmd_lines := q ++ [nl ++ lit "```{python}"];
                 in_code_block := true; skip_header := false;
                 header_end_count := 2 |}) as Hopen.
  { intros q. unfold body_step. cbn [skip_header in_code_block].
    by rewrite Hc2, Hc1. }
  rewrite Hopen, body_code_lines by done. cbn [in_code_block qmd_lines].
  unfold title_line. destruct hdr; cbn [fmap list_fmap];
    by rewrite <- ?app_assoc.
Qed.

(** X10.  A markdown cell after the header: of its lines, none of which
    begins with a cell marker, the manual transform writes the text
    behind the comment prefix ["# "], an empty line for a blank line, and
    nothing for any other line, which is dropped without a message; no
    fence is written. *)
Theorem manual_markdown_cell (stem_ content : text) (m1 m2 cell : text)
    (hdr ls : list text) :
  split_nl content = m1 :: hdr ++ m2 :: cell :: ls ->
  is_marker_line m1 = true -> is_marker_line m2 = true ->
  Forall (fun l => is_marker_line l = false) hdr ->
  startswith cell (lit "# %% [markdown]") = true ->
  Forall (fun l => startswith l (lit "# %%") = false) ls ->
  manual_qmd_lines stem_ content =
  [lit "---"]
  ++ match hdr with
     | [] => [title_line stem_]
     | _ :: _ => yaml_line_of <$> hdr
     end
  ++ [lit "---" ++ nl] ++ omap markdown_line ls.
Proof.
  intros Hsplit H1 H2 Hh Hc Hls. unfold manual_qmd_lines. cbn zeta.
  rewrite Hsplit, extract_yaml_header by done.
  replace (m1 :: hdr ++ m2 :: cell :: ls)
    with ((m1 :: hdr ++ [m2]) ++ cell :: ls)
    by (cbn [app]; by rewrite <- app_assoc).
  rewrite foldl_app, body_header_done by done. cbn [foldl].
  assert (forall q,
            body_step {| qmd_lines := q; in_code_block := false;
                         skip_header := false; header_end_count := 2 |} cell
            = {| qmd_lines := q; in_code_block := false; skip_header := false;
                 header_end_count := 2 |}) as Hopen.
  { intros q. unfold body_step. cbn [skip_header in_code_block]. by rewrite Hc. }
  rewrite Hopen, body_markdown_lines by done. cbn [in_code_block qmd_lines].
  unfold title_line. destruct hdr; cbn [fmap list_fmap];
    by rewrite <- ?app_assoc.
Qed.

Lemma manual_code_cell_sample :
  let content := lit "# ---" ++ nl ++ lit "# title: Demo" ++ nl ++ lit "# ---"
                 ++ nl ++ lit "# %%" ++ nl ++ lit "x = 1" ++ nl ++ lit "# done" in
  split_nl content
  = lit "# ---" :: [lit "# title: Demo"] ++ lit "# ---" :: lit "# %%"
    :: [lit "x = 1"; lit "# done"] /\
  manual_qmd_lines (lit "x") content
  = [lit "---"; lit "title: Demo"; lit "---" ++ nl; nl ++ lit "```{python}";
     lit "x = 1"; lit "# done"; lit "```"].
Proof.
  intros content.
  assert (split_nl content
          = lit "# ---" :: [lit "# title: Demo"] ++ lit "# ---" :: lit "# %%"
            :: [lit "x = 1"; lit "# done"]) as H by (vm_compute; reflexivity).
  split; [exact H|].
  rewrite (manual_code_cell (lit "x") content _ _ _ _ _ H);
    try (vm_compute; reflexivity);
    try (refine (bool_decide_unpack _ _); vm_compute; exact I).
Defined.

Lemma manual_markdown_cell_sample :
  let content := lit "# ---" ++ nl ++ lit "# title: Demo" ++ nl ++ lit "# ---"
                 ++ nl ++ lit "# %% [markdown]" ++ nl ++ lit "# Findings"
                 ++ nl ++ nl ++ lit "#" ++ nl ++ lit "stray = 1" in
  split_nl content
  = lit "# ---" :: [lit "# title: Demo"] ++ lit "# ---" :: lit "# %% [markdown]"
    :: [lit "# Findings"; []; lit "#"; lit "stray = 1"] /\
  manual_qmd_lines (lit "x") content
  = [lit "---"; lit "title: Demo"; lit "---" ++ nl; lit "Findings"; []].
Proof.
  intros content.
  assert (split_nl content
          = lit "# ---" :: [lit "# title: Demo"] ++ lit "# ---"
            :: lit "# %% [markdown]"
            :: [lit "# Findings"; []; lit "#"; lit "stray = 1"]) as H
    by (vm_compute; reflexivity).
  split; [exact H|].
  rewrite (manual_markdown_cell (lit "x") content _ _ _ _ _ H);
    try (vm_compute; reflexivity);
    try (refine (bool_decide_unpack _ _); vm_compute; exact I).
Defined.

(** ** The render step: result, launch and echo *)

(** The render step, by the outcome of the launch. *)
Lemma run_quarto_render_eq (os : OS) (root : Path) (w : World) :
  run_quarto_render os root w =
  let running := nl ++ lit "Running Quarto render..." in
  let call := ([lit "quarto"; lit "render"], Some root) in
  match os_run os (snd (print running w)) [lit "quarto"; lit "render"]
          (Some root) with
  | NotFound =>
      (Ret false,
       {| disk := disk w;
          console := console w ++ [running; lit "Error: Quarto CLI not found. Please install Quarto from https://quarto.org/docs/get-started/"];
          launched := launched w ++ [call] |})
  | LaunchError =>
      (Raise PermissionError,
       {| disk := disk w; console := console w ++ [running];
          launched := launched w ++ [call] |})
  | Completed rc so se d =>
      (Ret (rc =? 0)%Z,
       {| disk := d;
          console :=
            console w
            ++ running
               :: match so with [] => [] | _ :: _ => [so] end
               ++ (if (rc =? 0)%Z
                   then [lit "Quarto render completed successfully!"]
                   else (lit "Quarto render failed with exit code " ++ str_int rc)
                        :: match se with
                           | [] => []
                           | _ :: _ => [lit "Error: " ++ se]
                           end);
          launched := launched w ++ [call] |})
  end.
Proof.
  unfold run_quarto_render, try_except, mbind, M_bind, subprocess_run.
  rewrite print_eq. cbn zeta. cbn [snd].
  destruct (os_run os _ _ _) as [| |rc so se d].
  - cbn. by rewrite <- app_assoc.
  - done.
  - destruct (rc =? 0)%Z, so, se; cbn; by rewrite <- ?app_assoc.
Qed.

(** X11.  The render step launches the renderer once, with arguments
    [quarto render] and the root as working directory.  It returns true
    exactly when the renderer completes with exit code zero, and false
    when the executable is missing or the exit code is not zero; a launch
    that fails otherwise raises.  What the renderer wrote to its standard
    output, if anything, is printed, whatever the exit code. *)
Theorem run_quarto_render_spec (os : OS) (root : Path) (w : World) :
  let w0 := snd (print (nl ++ lit "Running Quarto render...") w) in
  let launch := os_run os w0 [lit "quarto"; lit "render"] (Some root) in
  let '(r, w') := run_quarto_render os root w in
  launched w' = launched w ++ [([lit "quarto"; lit "render"], Some root)] /\
  (r = Ret true <-> exists so se d, launch = Completed 0 so se d) /\
  (r = Ret false <->
   launch = NotFound \/
   exists rc so se d, launch = Completed rc so se d /\ rc <> 0%Z) /\
  (r = Raise PermissionError <-> launch = LaunchError) /\
  (forall rc so se d, launch = Completed rc so se d ->
     disk w' = d /\ (so <> [] -> so ∈ new_lines w w')).
Proof.
  intros w0 launch. rewrite run_quarto_render_eq. cbn zeta.
  fold w0. fold launch. unfold new_lines.
  destruct launch as [| |rc so se d] eqn:Hl; cbn [launched disk console].
  - split; [done|]. split; [split; [done|by intros (? & ? & ? & ?)]|].
    split; [split; [by left|done]|]. split; [done|]. by intros.
  - split; [done|]. split; [split; [done|by intros (? & ? & ? & ?)]|].
    split; [split; [done|]|].
    { intros [?|(? & ? & ? & ? & ? & _)]; done. }
    split; [done|]. by intros.
  - split; [done|]. split; [|split; [|split; [done|]]].
    + split.
      * intros [= ->%Z.eqb_eq]. eauto.
      * intros (? & ? & ? & [= -> _ _ _]). done.
    + split.
      * intros [= Hrc%Z.eqb_neq]. right. eauto 6.
      * intros [?|(? & ? & ? & ? & [= <- _ _ _] & Hrc%Z.eqb_neq)]; [done|].
        by rewrite Hrc.
    + intros ? ? ? ? [= _ <- _ <-]. split; [done|]. intros Hso.
      rewrite drop_app_length. destruct so as [|c so]; [done|].
      apply elem_of_cons. right. apply elem_of_cons. by left.
Qed.

(** ** The conversion step: launches and entries *)

Section ConversionLaunches.

Context (os : OS).

(** A conversion launches the converter once, whatever comes of it. *)
Lemma convert_launched (py_file output_dir : Path) (w w' : World)
    (r : result (option Path)) :
  convert_jupytext_to_qmd os py_file output_dir w = (r, w') ->
  launched w' =
  launched w ++ [(jupytext_argv py_file (qmd_target py_file output_dir), None)].
Proof.
  destruct (os_run os w (jupytext_argv py_file (qmd_target py_file output_dir)) None)
    as [| |rc so se d] eqn:Hrun.
  - rewrite (convert_not_found _ _ _ _ Hrun), manual_jupytext_to_qmd_eq.
    cbn zeta. destruct (read_text _ _); [by intros [= _ <-]|].
    destruct (write_node _ _ _); by intros [= _ <-].
  - rewrite (convert_launch_error _ _ _ _ Hrun). by intros [= _ <-].
  - rewrite (convert_completed _ _ _ _ _ _ _ _ Hrun). cbn zeta.
    destruct (_ && _); by intros [= _ <-].
Qed.

Lemma convert_file_launched (f f' : Doc) (w w' : World) :
  convert_file os f w = (Ret f', w') ->
  launched w' =
  launched w
  ++ (if decide (type f = jupytext)
      then [(jupytext_argv (path f) (qmd_target (path f) (parent (path f))), None)]
      else []).
Proof.
  unfold convert_file. destruct (decide (type f = jupytext)) as [Hty|Hty].
  - rewrite bool_decide_eq_true_2 by done. intros H.
    inv_bind H as q w1 Hc. apply convert_launched in Hc.
    destruct q; by injection H as _ <-.
  - rewrite bool_decide_eq_false_2 by done. intros [= _ <-].
    by rewrite app_nil_r.
Qed.

End ConversionLaunches.

(** X12.  When the conversion step of a team completes, it has launched
    the converter exactly once for each entry of kind jupytext, in the
    order of the entries, with the arguments
    [jupytext --to qmd -o <dir>/<stem>.qmd <file>], and never for an entry
    of another kind. *)
Theorem convert_files_launches (os : OS) (fl fl' : list Doc) (w w' : World) :
  convert_files os fl w = (Ret fl', w') ->
  launched w' =
  launched w
  ++ ((fun f => (jupytext_argv (path f) (qmd_target (path f) (parent (path f))),
                 None))
      <$> filter (fun f => type f = jupytext) fl).
Proof.
  revert fl' w. induction fl as [|f fl IH]; intros fl' w; cbn [convert_files].
  - intros [= _ <-]. by rewrite app_nil_r.
  - intros H. inv_bind H as f' w1 Hf. inv_bind H as rest w2 Hr.
    injection H as _ <-. apply convert_file_launched in Hf. apply IH in Hr.
    rewrite Hr, Hf, filter_cons.
    destruct (decide (type f = jupytext)); [|by rewrite app_nil_r].
    rewrite fmap_cons. by rewrite <- app_assoc.
Qed.

Lemma convert_files_launches_sample :
  let r := convert_files failing_tools
             (default [] (files <$> head sample_teams)) sample_world in
  let fl' := match fst r with Ret fl => fl | _ => [] end in
  r = (Ret fl', snd r) /\
  length (launched (snd r)) = 1.
Proof.
  intros r fl'.
  assert (r = (Ret fl', snd r)) as H by (vm_compute; reflexivity).
  split; [exact H|].
  rewrite (convert_files_launches _ _ _ _ _ H). vm_compute. reflexivity.
Defined.

(** X13.  The conversion step keeps the entries of a team in number and
    order, and it keeps every display name.  An entry that is not of kind
    jupytext is left as it is; an entry of kind jupytext is left as it is
    or becomes an entry of kind quarto whose path is [<stem>.qmd] in the
    directory of the source. *)
Theorem convert_files_entries (os : OS) (fl fl' : list Doc) (w w' : World) :
  convert_files os fl w = (Ret fl', w') ->
  length fl' = length fl /\
  name <$> fl' = name <$> fl /\
  (forall i f, fl !! i = Some f -> type f <> jupytext -> fl' !! i = Some f) /\
  (forall i f, fl !! i = Some f -> type f = jupytext ->
     fl' !! i = Some f \/
     fl' !! i = Some {| path := child (parent (path f)) (stem (path f) ++ lit ".qmd");
                        type := quarto; name := name f |}).
Proof.
  intros H%convert_files_Ret. split; [|split; [|split]].
  - symmetry. by eapply Forall2_length.
  - induction H as [|f f' fl fl' Hf _ IH]; [done|].
    rewrite !fmap_cons, IH. by destruct Hf as [->|[_ ->]].
  - intros i f Hi Hty.
    destruct (Forall2_lookup_l _ _ _ _ _ H Hi) as (f' & Hf' & [->|[? _]]); done.
  - intros i f Hi Hty.
    destruct (Forall2_lookup_l _ _ _ _ _ H Hi) as (f' & Hf' & [->|[_ ->]]);
      [by left|by right].
Qed.

Lemma convert_files_entries_sample :
  let r := convert_files no_tools
             (default [] (files <$> head sample_teams)) sample_world in
  let fl' := match fst r with Ret fl => fl | _ => [] end in
  r = (Ret fl', snd r) /\
  name <$> fl' = name <$> default [] (files <$> head sample_teams).
Proof.
  intros r fl'.
  assert (r = (Ret fl', snd r)) as H by (vm_compute; reflexivity).
  split; [exact H|].
  exact (proj1 (proj2 (convert_files_entries _ _ _ _ _ H))).
Defined.

(** ** The build: a team source path that is a file *)

(** X14.  When [<root>/Team_Projects] is a file, the build ends with the
    uncaught [NotADirectoryError] of discovery, hence with exit status 1:
    it has written no file and launched no subprocess. *)
Theorem build_site_src_is_file (os : OS) (script_dir cwd : Path) (w : World)
    (data : option text) :
  lookup_path (child (get_root_dir script_dir cwd) (lit "Team_Projects")) (disk w)
  = Some (File data) ->
  exists w',
    build_site os script_dir cwd w = (Raise NotADirectoryError, w') /\
    exit_status (fst (build_site os script_dir cwd w)) = 1%Z /\
    disk w' = disk w /\ launched w' = launched w.
Proof.
  intros Hsrc.
  assert (discover_team_projects (disk w)
            (child (get_root_dir script_dir cwd) (lit "Team_Projects"))
          = inl NotADirectoryError) as Hd.
  { by apply (proj2 (discover_without_directory_aux _ _) data). }
  unfold build_site, build_site_generate, mbind, M_bind. cbn zeta.
  rewrite !print_eq. cbn [disk]. rewrite Hd. cbn [lift_exn].
  eexists. split; [reflexivity|]. done.
Qed.

(** ** The landing page: the legacy HTML file *)

Lemma read_text_exists (fs : node) (p : Path) (t : text) :
  read_text fs p = inr t -> exists_ fs p = true.
Proof.
  unfold read_text, exists_. by destruct (lookup_path p fs) as [[[?|]|]|].
Qed.

Lemma find_from_first_at (p s : text) (i : nat) (k : Z) :
  first_at p s i -> find_from p s k = (k + Z.of_nat i)%Z.
Proof.
  revert i k. induction s as [|c s IH]; intros i k [Hi Hlt].
  - destruct i as [|i].
    + cbn [find_from]. rewrite drop_0 in Hi. rewrite Hi. lia.
    + pose proof (Hlt 0 ltac:(lia)) as H0. rewrite drop_0 in H0.
      rewrite drop_nil in Hi. congruence.
  - destruct i as [|i].
    + cbn [find_from]. rewrite drop_0 in Hi. rewrite Hi. lia.
    + pose proof (Hlt 0 ltac:(lia)) as H0. rewrite drop_0 in H0.
      cbn [find_from]. rewrite H0. rewrite (IH i).
      * lia.
      * split; [done|]. intros j Hj. apply (Hlt (S j)). lia.
Qed.

Lemma find_first_at (p s : text) (i : nat) :
  first_at p s i -> find s p = Z.of_nat i.
Proof. intros H. unfold find. by rewrite (find_from_first_at _ _ i). Qed.

Lemma first_at_contains (p s : text) (i : nat) :
  first_at p s i -> contains p s = true.
Proof.
  intros [[post Hi]%startswith_spec _]. apply contains_spec.
  exists (take i s), post. by rewrite <- Hi, take_drop.
Qed.

(** The loop that builds the team links of the landing page. *)
Lemma team_links_loop (root : Path) (teams : list Team) :
  match teams with
  | [] => inr []
  | _ :: _ =>
      for_acc teams
        (fun team_links team =>
           match for_acc (files team)
                   (fun team_links0 f =>
                      match rel_path_str root (path f) with
                      | inr a => inr (team_links0 ++ link_line (name f) a)
                      | inl e => inl e
                      end)
                   (team_links ++ lit "### " ++ team_name team ++ nl ++ nl) with
           | inr a => inr (a ++ nl)
           | inl e => inl e
           end) (nl ++ lit "## Team Projects" ++ nl ++ nl)
  end = team_links_of root teams.
Proof.
  unfold team_links_of. destruct teams as [|t teams']; [done|].
  rewrite (for_acc_gather _ (block_of root)).
  - destruct (gather (block_of root) (t :: teams')); [done|].
    by rewrite <- ?app_assoc.
  - intros acc' t'. rewrite (for_acc_gather _ (links_of root)).
    + unfold block_of. destruct (gather (links_of root) (files t')); [done|].
      by rewrite <- ?app_assoc.
    + intros acc'' f. unfold links_of. by destruct (rel_path_str root (path f)).
Qed.

(** The landing page when the legacy file reads: the title and the body
    come from its text. *)
Lemma create_index_qmd_present (fs : node) (root : Path) (teams : list Team)
    (html : text) :
  read_text fs (child root (lit "index.html")) = inr html ->
  exists title body_content,
    create_index_qmd fs root teams =
    match team_links_of root teams with
    | inl e => inl e
    | inr team_links => inr (page title body_content team_links)
    end /\
    (contains (lit "<title>") html && contains (lit "</title>") html = false ->
     title = lit "Data Dive 2025") /\
    (contains (lit "<title>") html && contains (lit "</title>") html = true ->
     title = replace (slice html (find html (lit "<title>") + 7)
                        (find html (lit "</title>")))
               (lit "&mdash;") mdash) /\
    (contains (lit "<body>") html = false -> body_content = []).
Proof.
  intros Hread. pose proof (read_text_exists _ _ _ Hread) as Hex.
  unfold create_index_qmd, mbind, exn_bind, mret, exn_ret. cbn zeta.
  rewrite Hex, Hread, team_links_loop.
  eexists _, _. split; [|split; [|split]].
  - destruct (team_links_of root teams); [done|]. unfold page. reflexivity.
  - by intros ->.
  - by intros ->.
  - by intros ->.
Qed.

Lemma first_atb_spec (p s : text) (i : nat) :
  first_atb p s i = true -> first_at p s i.
Proof.
  unfold first_atb, first_at. rewrite andb_true_iff, forallb_forall.
  intros [Hi Hlt]. split; [done|]. intros j Hj.
  apply negb_true_iff, Hlt, in_seq. lia.
Qed.

(** X15.  A legacy HTML file that exists but cannot be read (a directory,
    or a text that is not UTF-8) makes the generation of the landing page
    raise the error of the read.  A legacy file that reads but holds no
    pair of title tags and no body tag gives the default title and an
    empty body, as when there is no file. *)
Theorem create_index_qmd_legacy_file (fs : node) (root : Path) (teams : list Team) :
  (forall e, exists_ fs (child root (lit "index.html")) = true ->
             read_text fs (child root (lit "index.html")) = inl e ->
             create_index_qmd fs root teams = inl e) /\
  (forall html,
     read_text fs (child root (lit "index.html")) = inr html ->
     contains (lit "<title>") html && contains (lit "</title>") html = false ->
     contains (lit "<body>") html = false ->
     create_index_qmd fs root teams =
     match team_links_of root teams with
     | inl e => inl e
     | inr team_links => inr (page (lit "Data Dive 2025") [] team_links)
     end).
Proof.
  split.
  - intros e Hex Hread.
    unfold create_index_qmd, mbind, exn_bind. cbn zeta. by rewrite Hex, Hread.
  - intros html Hread Ht Hb.
    destruct (create_index_qmd_present fs root teams html Hread)
      as (title & body_content & -> & Htitle & _ & Hbody).
    by rewrite (Htitle Ht), (Hbody Hb).
Qed.

(** X16.  The title of the landing page is the text between the first
    opening title tag and the first closing title tag of the legacy file,
    with every [&mdash;] replaced by an em dash; without a body tag the
    body is empty.  When the first closing tag does not lie behind the
    first opening tag, the title is empty. *)
Theorem create_index_qmd_title (fs : node) (root : Path) (teams : list Team)
    (html : text) (i j : nat) :
  read_text fs (child root (lit "index.html")) = inr html ->
  first_at (lit "<title>") html i ->
  first_at (lit "</title>") html j ->
  contains (lit "<body>") html = false ->
  let title :=
    replace (take (j - (i + 7)) (drop (i + 7) html)) (lit "&mdash;") mdash in
  create_index_qmd fs root teams =
  match team_links_of root teams with
  | inl e => inl e
  | inr team_links => inr (page title [] team_links)
  end /\
  (j <= i + 7 -> title = []).
Proof.
  intros Hread Hi Hj Hb title.
  destruct (create_index_qmd_present fs root teams html Hread)
    as (title' & body_content & -> & _ & Htitle & Hbody).
  rewrite (Hbody Hb), Htitle.
  - rewrite (find_first_at _ _ i Hi), (find_first_at _ _ j Hj). unfold slice.
    replace (Z.to_nat (Z.of_nat j - (Z.of_nat i + 7))) with (j - (i + 7)) by lia.
    replace (Z.to_nat (Z.of_nat i + 7)) with (i + 7) by lia.
    split; [done|]. intros Hle. unfold title.
    by replace (j - (i + 7)) with 0 by lia.
  - by rewrite (first_at_contains _ _ _ Hi), (first_at_contains _ _ _ Hj).
Qed.

Lemma create_index_qmd_title_sample :
  read_text legacy_disk (child sample_root (lit "index.html")) = inr legacy_html /\
  first_at (lit "<title>") legacy_html 12 /\
  first_at (lit "</title>") legacy_html 41 /\
  contains (lit "<body>") legacy_html = false /\
  create_index_qmd legacy_disk sample_root []
  = inr (page (lit "Data Dive " ++ mdash ++ lit " 2025") [] []).
Proof.
  assert (read_text legacy_disk (child sample_root (lit "index.html"))
          = inr legacy_html) as H1 by (vm_compute; reflexivity).
  assert (first_at (lit "<title>") legacy_html 12) as H2
    by (apply first_atb_spec; vm_compute; reflexivity).
  assert (first_at (lit "</title>") legacy_html 41) as H3
    by (apply first_atb_spec; vm_compute; reflexivity).
  assert (contains (lit "<body>") legacy_html = false) as H4
    by (vm_compute; reflexivity).
  split; [exact H1|]. split; [exact H2|]. split; [exact H3|]. split; [exact H4|].
  rewrite (proj1 (create_index_qmd_title legacy_disk sample_root [] legacy_html
                    12 41 H1 H2 H3 H4)).
  vm_compute. reflexivity.
Defined.

(** ** Discovery lists nothing twice *)

Lemma StronglySorted_NoDup_fmap {A B} (R : relation A) (f : A -> B) (l : list A) :
  StronglySorted R l ->
  (forall x y, x ∈ l -> y ∈ l -> R x y -> f x <> f y) ->
  NoDup (f <$> l).
Proof.
  induction 1 as [|x l _ IH Hx]; intros Hne; [constructor|].
  rewrite fmap_cons. apply NoDup_cons. split.
  - intros (y & Hy & Hin)%list_elem_of_fmap.
    rewrite Forall_forall in Hx.
    apply (Hne x y); [by left|by right|auto|done].
  - apply IH. intros y z ? ?. apply Hne; by right.
Qed.

Lemma extensions_disjoint (k1 k2 : kind) (f : text) :
  endswith f (extension k1) = true -> endswith f (extension k2) = true ->
  k1 = k2.
Proof.
  unfold endswith. intros [p1 H1]%startswith_spec [p2 H2]%startswith_spec.
  rewrite H1 in H2. destruct k1, k2; try done; vm_compute in H2; congruence.
Qed.

Lemma text_lt_ne (a b : text) : text_lt a b -> a <> b.
Proof. intros H ->. unfold text_lt in H. by rewrite text_ltb_irrefl in H. Qed.

(** X17.  No two teams of a discovery result bear the same name, and no
    two file entries of a discovered team hold the same path: an entry
    is listed twice only after the conversion step. *)
Theorem discovered_entries_distinct (fs : node) (src : Path) (teams : list Team) :
  discover_team_projects fs src = inr teams ->
  NoDup (team_name <$> teams) /\
  Forall (fun t => NoDup (path <$> files t)) teams.
Proof.
  intros Hd. destruct (lookup_path src fs) as [[|es]|] eqn:Hs.
  - unfold discover_team_projects, exists_, iterdir in Hd. by rewrite Hs in Hd.
  - rewrite (discover_eq _ _ es Hs) in Hd. apply inr_eq in Hd as <-. split.
    + rewrite <- list_fmap_compose.
      apply (StronglySorted_NoDup_fmap
               (fun p q => text_lt (name_of p) (name_of q))).
      * apply StronglySorted_filter, sorted_children, NoDup_fst_map_to_list.
      * intros p q _ _ Hlt. simpl. by apply text_lt_ne.
    + apply Forall_forall. intros t Ht.
      apply (discovered_team _ _ es) in Ht as (n & _ & (Hdir & _) & ->); [|done].
      cbn [files team_of].
      apply (StronglySorted_NoDup_fmap doc_lt); [apply team_files_sorted|].
      intros d1 d2 Hd1 Hd2 Hlt.
      apply team_files_elem in Hd1 as (f1 & k1 & (_ & He1 & _) & ->); [|done].
      apply team_files_elem in Hd2 as (f2 & k2 & (_ & He2 & _) & ->); [|done].
      cbn [doc_of path type] in *. intros Hp%(inj (child _)). subst f2.
      destruct Hlt as [Hlt|[_ Hlt]].
      * assert (k1 = k2) as -> by eauto using extensions_disjoint. lia.
      * by apply text_lt_ne in Hlt.
  - unfold discover_team_projects, exists_ in Hd. rewrite Hs in Hd.
    apply inr_eq in Hd as <-. split; constructor.
Qed.

Lemma discovered_entries_distinct_sample :
  discover_team_projects sample_disk sample_src = inr sample_teams /\
  Forall (fun t => NoDup (path <$> files t)) sample_teams.
Proof.
  assert (discover_team_projects sample_disk sample_src = inr sample_teams) as H
    by (vm_compute; reflexivity).
  split; [exact H|].
  exact (proj2 (discovered_entries_distinct _ _ _ H)).
Defined.

(** ** The build without a team source directory *)

Lemma write_node_child (r : Path) (a : text) (data : text) (n : node)
    (es : gmap text node) :
  lookup_path r n = Some (Dir es) ->
  (forall es', es !! a <> Some (Dir es')) ->
  exists n',
    write_node (child r a) data n = inr n' /\
    lookup_path r n' = Some (Dir (<[a:=File (Some data)]> es)).
Proof.
  unfold child. revert n. induction r as [|c r IH]; intros n Hr Ha.
  - injection Hr as ->. cbn [app write_node]. eexists. split; [|reflexivity].
    destruct (es !! a) as [[|es']|] eqn:E; [done| |done]. by destruct (Ha es').
  - destruct n as [|es0]; [done|]. cbn [lookup_path] in Hr.
    destruct (es0 !! c) as [n0|] eqn:Hc; [|done].
    destruct (IH n0 Hr Ha) as (n'' & Hw & Hl).
    cbn [app]. destruct (r ++ [a]) as [|c' p] eqn:E; [by destruct r|].
    rewrite write_node_cons, Hc, Hw. eexists. split; [reflexivity|].
    cbn [lookup_path]. by rewrite lookup_insert_eq.
Qed.

(** X18.  When the root is a directory without [Team_Projects] and
    without [index.html], and neither [_quarto.yml] nor [index.qmd] is a
    directory, the steps before the render step complete without
    launching anything: the configuration written is the one with the
    single fallback link, and the landing page written has the default
    title, an empty body and no team section. *)
Theorem build_without_projects (os : OS) (script_dir cwd : Path) (w : World)
    (es : gmap text node) :
  let root := get_root_dir script_dir cwd in
  lookup_path root (disk w) = Some (Dir es) ->
  es !! lit "Team_Projects" = None ->
  es !! lit "index.html" = None ->
  (forall es', es !! lit "_quarto.yml" <> Some (Dir es')) ->
  (forall es', es !! lit "index.qmd" <> Some (Dir es')) ->
  exists w1,
    build_site_generate os script_dir cwd w = (Ret root, w1) /\
    launched w1 = launched w /\
    read_text (disk w1) (quarto_yml_path root)
    = inr (config_head ++ lit "        - Team_Projects/README.md" ++ nl
           ++ config_tail) /\
    read_text (disk w1) (index_qmd_path root)
    = inr (page (lit "Data Dive 2025") [] []).
Proof.
  intros root Hroot Htp Hhtml Hyml Hidx.
  assert (discover_team_projects (disk w) (child root (lit "Team_Projects"))
          = inr []) as Hd.
  { apply discover_without_directory_aux. unfold exists_.
    by rewrite lookup_path_child, Hroot, Htp. }
  set (yml := config_head ++ lit "        - Team_Projects/README.md" ++ nl
              ++ config_tail).
  assert (generate_quarto_yml root [] = inr yml) as Hgen by reflexivity.
  destruct (write_node_child root (lit "_quarto.yml") yml (disk w) es Hroot Hyml)
    as (d1 & Hw1 & Hroot1).
  assert (create_index_qmd d1 root [] = inr (page (lit "Data Dive 2025") [] []))
    as Hpage.
  { destruct (create_index_qmd_eq d1 root []) as (front & -> & Hfront).
    rewrite Hfront; [done|]. unfold exists_.
    rewrite lookup_path_child, Hroot1, lookup_insert_ne by done. by rewrite Hhtml. }
  destruct (write_node_child root (lit "index.qmd")
              (page (lit "Data Dive 2025") [] []) d1 _ Hroot1)
    as (d2 & Hw2 & Hroot2).
  { intros es'. rewrite lookup_insert_ne by done. apply Hidx. }
  unfold build_site_generate, mbind, M_bind. cbn zeta. fold root.
  rewrite !print_eq. cbn [disk]. rewrite Hd. cbn [lift_exn for_each mret M_ret].
  rewrite !print_eq. cbn [convert_teams mret M_ret]. rewrite !print_eq.
  rewrite Hgen. cbn [lift_exn]. unfold path_write_text at 1. cbn [disk].
  fold (quarto_yml_path root) in Hw1. rewrite Hw1. rewrite !print_eq. cbn [disk].
  rewrite Hpage. cbn [lift_exn]. unfold path_write_text. cbn [disk].
  fold (index_qmd_path root) in Hw2. rewrite Hw2. rewrite !print_eq.
  eexists. split; [reflexivity|]. cbn [disk launched]. split; [done|].
  split; [|by apply (read_text_written _ _ _ _ Hw2)].
  unfold read_text, quarto_yml_path, index_qmd_path in *.
  rewrite (write_node_sibling _ _ _ _ _ _ Hw2) by done.
  by rewrite (write_node_lookup _ _ _ _ Hw1).
Qed.

Lemma build_without_projects_sample :
  let w := {| disk := Dir {[ lit "repo" := Dir ∅ ]}; console := [];
              launched := [] |} in
  lookup_path (get_root_dir sample_script_dir []) (disk w) = Some (Dir ∅) /\
  exists w1,
    build_site_generate no_tools sample_script_dir [] w = (Ret sample_root, w1) /\
    launched w1 = [].
Proof.
  intros w.
  assert (lookup_path (get_root_dir sample_script_dir []) (disk w) = Some (Dir ∅))
    as H by (vm_compute; reflexivity).
  split; [exact H|].
  destruct (build_without_projects no_tools sample_script_dir [] w ∅ H)
    as (w1 & Hg & Hl & _); try done.
  exists w1. split; [exact Hg|exact Hl].
Defined.

Lemma build_site_src_is_file_sample :
  let w := {| disk := Dir {[ lit "repo" :=
                               Dir {[ lit "Team_Projects" := File (Some []) ]} ]};
              console := []; launched := [] |} in
  lookup_path (child (get_root_dir sample_script_dir []) (lit "Team_Projects"))
    (disk w) = Some (File (Some [])) /\
  exit_status (fst (build_site no_tools sample_script_dir [] w)) = 1%Z.
Proof.
  intros w.
  assert (lookup_path (child (get_root_dir sample_script_dir [])
                         (lit "Team_Projects")) (disk w)
          = Some (File (Some []))) as H by (vm_compute; reflexivity).
  split; [exact H|].
  destruct (build_site_src_is_file no_tools sample_script_dir [] w _ H)
    as (w' & _ & Hx & _).
  exact Hx.
Defined.

(** ** The manual transform: sequences of cells *)

Lemma body_step_code_marker (st : scan) (cell : text) :
  skip_header st = false -> in_code_block st = true ->
  startswith cell (lit "# %%") = true ->
  startswith cell (lit "# %% [markdown]") = false ->
  body_step st cell = st.
Proof. intros Hs Hc H1 H2. unfold body_step. by rewrite Hs, H2, H1, Hc. Qed.

Lemma body_step_markdown_marker (st : scan) (cell : text) :
  skip_header st = false -> in_code_block st = true ->
  startswith cell (lit "# %% [markdown]") = true ->
  body_step st cell = emit st (lit "```" ++ nl) false.
Proof. intros Hs Hc H1. unfold body_step. by rewrite Hs, H1, Hc. Qed.

(** The header and a first code cell. *)
Lemma body_header_code (q : list text) (m1 m2 cell : text) (hdr code : list text) :
  is_marker_line m1 = true -> is_marker_line m2 = true ->
  Forall (fun l => is_marker_line l = false) hdr ->
  startswith cell (lit "# %%") = true ->
  startswith cell (lit "# %% [markdown]") = false ->
  Forall (fun l => startswith l (lit "# %%") = false) code ->
  foldl body_step
    {| qmd_lines := q; in_code_block := false; skip_header := true;
       header_end_count := 0 |} ((m1 :: hdr ++ [m2]) ++ cell :: code)
  = {| qmd_lines := (q ++ [nl ++ lit "```{python}"]) ++ code;
       in_code_block := true; skip_header := false; header_end_count := 2 |}.
Proof.
  intros H1 H2 Hh Hc1 Hc2 Hcode.
  rewrite foldl_app, body_header_done by done. cbn [foldl].
  assert (body_step {| qmd_lines := q; in_code_block := false;
                       skip_header := false; header_end_count := 2 |} cell
          = {| qmd_lines := q ++ [nl ++ lit "```{python}"];
               in_code_block := true; skip_header := false;
               header_end_count := 2 |}) as ->.
  { unfold body_step. cbn [skip_header in_code_block]. by rewrite Hc2, Hc1. }
  by rewrite body_code_lines.
Qed.

(** X19.  Two code cells in a row are merged: the marker line of the
    second cell writes nothing, so the code of both cells lies in one
    fenced region. *)
Theorem manual_code_cells_merge (stem_ content : text) (m1 m2 cell1 cell2 : text)
    (hdr code1 code2 : list text) :
  split_nl content = (m1 :: hdr ++ [m2]) ++ (cell1 :: code1) ++ cell2 :: code2 ->
  is_marker_line m1 = true -> is_marker_line m2 = true ->
  Forall (fun l => is_marker_line l = false) hdr ->
  startswith cell1 (lit "# %%") = true ->
  startswith cell1 (lit "# %% [markdown]") = false ->
  startswith cell2 (lit "# %%") = true ->
  startswith cell2 (lit "# %% [markdown]") = false ->
  Forall (fun l => startswith l (lit "# %%") = false) (code1 ++ code2) ->
  manual_qmd_lines stem_ content =
  [lit "---"]
  ++ match hdr with
     | [] => [title_line stem_]
     | _ :: _ => yaml_line_of <$> hdr
     end
  ++ [lit "---" ++ nl; nl ++ lit "```{python}"] ++ code1 ++ code2 ++ [lit "```"].
Proof.
  intros Hsplit H1 H2 Hh Ha1 Ha2 Hb1 Hb2 [Hc1 Hc2]%Forall_app.
  unfold manual_qmd_lines. cbn zeta. rewrite Hsplit.
  assert (extract_yaml ((m1 :: hdr ++ [m2]) ++ (cell1 :: code1) ++ cell2 :: code2)
            false [] = yaml_line_of <$> hdr) as ->.
  { cbn [app]. rewrite <- app_assoc. by apply extract_yaml_header. }
  rewrite (app_assoc (m1 :: hdr ++ [m2])), foldl_app.
  rewrite body_header_code by done. cbn [foldl].
  rewrite body_step_code_marker by done.
  rewrite body_code_lines by done. cbn [in_code_block qmd_lines].
  unfold title_line. destruct hdr; cbn [fmap list_fmap];
    by rewrite <- ?app_assoc.
Qed.

(** X20.  A code cell followed by a markdown cell: the marker line of
    the markdown cell closes the fence of the code cell, the text of the
    markdown cell follows, and no fence is written at the end. *)
Theorem manual_code_then_markdown (stem_ content : text) (m1 m2 cell md : text)
    (hdr code ls : list text) :
  split_nl content = (m1 :: hdr ++ [m2]) ++ (cell :: code) ++ md :: ls ->
  is_marker_line m1 = true -> is_marker_line m2 = true ->
  Forall (fun l => is_marker_line l = false) hdr ->
  startswith cell (lit "# %%") = true ->
  startswith cell (lit "# %% [markdown]") = false ->
  Forall (fun l => startswith l (lit "# %%") = false) code ->
  startswith md (lit "# %% [markdown]") = true ->
  Forall (fun l => startswith l (lit "# %%") = false) ls ->
  manual_qmd_lines stem_ content =
  [lit "---"]
  ++ match hdr with
     | [] => [title_line stem_]
     | _ :: _ => yaml_line_of <$> hdr
     end
  ++ [lit "---" ++ nl; nl ++ lit "```{python}"] ++ code
  ++ [lit "```" ++ nl] ++ omap markdown_line ls.
Proof.
  intros Hsplit H1 H2 Hh Ha1 Ha2 Hcode Hmd Hls.
  unfold manual_qmd_lines. cbn zeta. rewrite Hsplit.
  assert (extract_yaml ((m1 :: hdr ++ [m2]) ++ (cell :: code) ++ md :: ls)
            false [] = yaml_line_of <$> hdr) as ->.
  { cbn [app]. rewrite <- app_assoc. by apply extract_yaml_header. }
  rewrite (app_assoc (m1 :: hdr ++ [m2])), foldl_app.
  rewrite body_header_code by done. cbn [foldl].
  rewrite body_step_markdown_marker by done.
  rewrite body_markdown_lines by done. cbn [in_code_block qmd_lines emit].
  unfold title_line. destruct hdr; cbn [fmap list_fmap];
    by rewrite <- ?app_assoc.
Qed.

Lemma manual_code_cells_merge_sample :
  let content := lit "# ---" ++ nl ++ lit "# title: Demo" ++ nl ++ lit "# ---"
                 ++ nl ++ lit "# %%" ++ nl ++ lit "x = 1" ++ nl
                 ++ lit "# %% second" ++ nl ++ lit "y = 2" in
  split_nl content
  = (lit "# ---" :: [lit "# title: Demo"] ++ [lit "# ---"])
    ++ (lit "# %%" :: [lit "x = 1"]) ++ lit "# %% second" :: [lit "y = 2"] /\
  manual_qmd_lines (lit "x") content
  = [lit "---"; lit "title: Demo"; lit "---" ++ nl; nl ++ lit "```{python}";
     lit "x = 1"; lit "y = 2"; lit "```"].
Proof.
  intros content.
  assert (split_nl content
          = (lit "# ---" :: [lit "# title: Demo"] ++ [lit "# ---"])
            ++ (lit "# %%" :: [lit "x = 1"]) ++ lit "# %% second" :: [lit "y = 2"])
    as H by (vm_compute; reflexivity).
  split; [exact H|].
  rewrite (manual_code_cells_merge (lit "x") content _ _ _ _ _ _ _ H);
    try (vm_compute; reflexivity);
    try (refine (bool_decide_unpack _ _); vm_compute; exact I).
Defined.

Lemma manual_code_then_markdown_sample :
  let content := lit "# ---" ++ nl ++ lit "# title: Demo" ++ nl ++ lit "# ---"
                 ++ nl ++ lit "# %%" ++ nl ++ lit "x = 1" ++ nl
                 ++ lit "# %% [markdown]" ++ nl ++ lit "# Done" in
  split_nl content
  = (lit "# ---" :: [lit "# title: Demo"] ++ [lit "# ---"])
    ++ (lit "# %%" :: [lit "x = 1"]) ++ lit "# %% [markdown]" :: [lit "# Done"] /\
  manual_qmd_lines (lit "x") content
  = [lit "---"; lit "title: Demo"; lit "---" ++ nl; nl ++ lit "```{python}";
     lit "x = 1"; lit "```" ++ nl; lit "Done"].
Proof.
  intros content.
  assert (split_nl content
          = (lit "# ---" :: [lit "# title: Demo"] ++ [lit "# ---"])
            ++ (lit "# %%" :: [lit "x = 1"])
            ++ lit "# %% [markdown]" :: [lit "# Done"])
    as H by (vm_compute; reflexivity).
  split; [exact H|].
  rewrite (manual_code_then_markdown (lit "x") content _ _ _ _ _ _ _ H);
    try (vm_compute; reflexivity);
    try (refine (bool_decide_unpack _ _); vm_compute; exact I).
Defined.
